(** * Sales comparison application (app.py): ingestion, reconciliation,
      filtering and summary, embedded over lists of records.

    Conventions of the embedding.
    - A Python [str] is the list of its code points ([str]); comparison of
      keys is the code-point lexicographic order Python uses.
    - A float64 cell is the rational it stands for ([Qc]) or NaN ([None]);
      an int64 cell is a [Z].  Overflow and the non-finite values that only
      arise from overflow are outside the embedding.
    - The delta and the rate of the reconciliation are written twice: with
      exact arithmetic ([analyze_sales_data]), which is what the code
      computes on amounts whose differences and quotients are doubles, and
      with every operation rounded to the nearest double as numpy does
      ([analyze_sales_data_f64]).  The two agree on the customers, the
      amounts and the place of the text 新規/完全減少; statements about the
      value of a delta or of a rate are made for the second.
    - pandas and numpy calls are written out on lists.  Four library
      behaviours are kept abstract: the reading of the file ([read_excel]),
      the text-to-number conversion ([to_numeric]), the order [sort_values]
      gives to rows with equal keys (its default algorithm is documented as
      not stable), and the regular expression engine outside the fragment
      written out here.  Columns of a dtype other than float64, int64 and
      object (dates, for one) are outside the embedding.
    - The messages of the page are a log; the values the widgets return are
      arguments. *)

From Stdlib Require Import List ZArith QArith Qcanon Qround Qabs Bool Lia Lqa.
From Stdlib Require Import Permutation Sorted String Ascii NArith.
Import ListNotations.

Set Implicit Arguments.

(* ------------------------------------------------------------------ *)
(** ** Text *)

Definition str := list N.

Definition str_of (s : string) : str :=
  map (fun c => N_of_ascii c) (list_ascii_of_string s).

Definition str_eq_dec : forall a b : str, {a = b} + {a <> b} :=
  list_eq_dec N.eq_dec.

Definition str_eqb (a b : str) : bool :=
  if str_eq_dec a b then true else false.

(** Python's [<=] on strings. *)
Fixpoint str_leb (a b : str) : bool :=
  match a, b with
  | [], _ => true
  | _ :: _, [] => false
  | x :: a', y :: b' =>
      if N.ltb x y then true
      else if N.eqb x y then str_leb a' b' else false
  end.

(* ------------------------------------------------------------------ *)
(** ** Numbers *)

(** A float64 cell: [None] is NaN. *)
Definition num := option Qc.

Definition notna (x : num) : bool :=
  match x with Some _ => true | None => false end.

Definition Qc_of_Z (z : Z) : Qc := Q2Qc (inject_Z z).

Definition Qc_eqb (a b : Qc) : bool :=
  if Qc_eq_dec a b then true else false.

Definition Qc_ltb (a b : Qc) : bool :=
  match (a ?= b)%Qc with Lt => true | _ => false end.

(** Equalities between computed tables: rationals are compared by value. *)
Ltac qc_eq :=
  match goal with
  | |- @eq Qc _ _ => apply Qc_is_canon; vm_compute; reflexivity
  end.

Ltac table_eq := vm_compute; repeat first [ qc_eq | reflexivity | f_equal ].

Definition hundred : Qc := Qc_of_Z 100.
Definition half : Qc := Q2Qc (1 # 2).

(** [Series.round(0).astype('int64')] on a finite float: numpy rounds to the
    nearest integer, halves to the even neighbour. *)
Definition round_half_even (q : Qc) : Z :=
  let f := Qfloor q in
  let r := (q - Qc_of_Z f)%Qc in
  if Qc_ltb r half then f
  else if Qc_ltb half r then (f + 1)%Z
  else if Z.even f then f else (f + 1)%Z.

(* ------------------------------------------------------------------ *)
(** ** Exceptions *)

(** Python exceptions (instances of [Exception]) that the embedded code can
    meet. *)
Inductive exn : Type :=
| IndexError
| ValueError
| ReError
| LibraryError (what : string).

Inductive result (A : Type) : Type :=
| Return (a : A)
| Raise (e : exn).

Arguments Return {A} a.
Arguments Raise {A} e.

Definition rbind {A B} (m : result A) (k : A -> result B) : result B :=
  match m with
  | Return a => k a
  | Raise e => Raise e
  end.

(* ------------------------------------------------------------------ *)
(** ** Ordering lists *)

Section Insertion.
Variable A : Type.
Variable before : A -> A -> bool.

(** [insert x l] puts [x] in front of the first element [y] of [l] with
    [before x y]. *)
Fixpoint insert (x : A) (l : list A) : list A :=
  match l with
  | [] => [x]
  | y :: l' => if before x y then x :: l else y :: insert x l'
  end.

Definition isort (l : list A) : list A := fold_right insert [] l.

End Insertion.

(** Keys in ascending lexicographic order, as [groupby] and an outer
    [merge] return them. *)
Definition sort_keys (ks : list str) : list str := isort str_leb ks.

(** What [DataFrame.sort_values(by=..., ascending=False)] promises with its
    default algorithm: the rows are rearranged so that the key does not
    increase.  The order among rows with equal keys is not part of it. *)
Class SortValues : Type := {
  sort_values : forall A : Type, (A -> Z) -> list A -> list A;
  sort_values_perm :
    forall (A : Type) (key : A -> Z) (l : list A),
      Permutation l (sort_values key l);
  sort_values_desc :
    forall (A : Type) (key : A -> Z) (l : list A),
      Sorted (fun a b => (key b <= key a)%Z) (sort_values key l)
}.

(** A sort that keeps rows with equal keys in their incoming order. *)
Definition stable_before (A : Type) (key : A -> Z) (x y : A) : bool :=
  (key y <=? key x)%Z.

(* ------------------------------------------------------------------ *)
(** ** Ingestion: process_excel_data *)

(** An element of an object-dtype column. *)
Inductive cell : Type :=
| CNum (q : Qc)
| CNaN
| CText (s : str).

(** A column is a numeric array (dtype int64 or float64) or an object array
    (dtype object).  A column of any other dtype is outside the embedding:
    the statements about the ingestion speak of sheets whose amount and
    profit columns hold numbers, text or nothing. *)
Inductive column : Type :=
| Numeric (xs : list num)
| Object (xs : list cell).

Definition COL_CUSTOMER : string := "得意先".
Definition COL_AMOUNT : string := "受注額".
Definition COL_HANDLER : string := "担当者".
Definition COL_ITEM : string := "品名".
Definition COL_PROFIT : string := "粗利益(B-L)".

(** The table [pd.read_excel] returns, restricted to the columns the
    function looks at.  A missing cell of the customer column is [None]. *)
Record DataFrame : Type := mkDataFrame {
  col_customer : option (list (option str));
  col_amount : option column;
  col_handler : bool;
  col_item : bool;
  col_profit : option column
}.

Definition present {A} (o : option A) : bool :=
  match o with Some _ => true | None => false end.

Definition columns (df : DataFrame) : list string :=
  (if present (col_customer df) then [COL_CUSTOMER] else []) ++
  (if present (col_amount df) then [COL_AMOUNT] else []) ++
  (if col_handler df then [COL_HANDLER] else []) ++
  (if col_item df then [COL_ITEM] else []) ++
  (if present (col_profit df) then [COL_PROFIT] else []).

Definition not_in (cols : list string) (c : string) : bool :=
  if in_dec string_dec c cols then false else true.

(** Boolean indexing: keep the positions whose flag is set. *)
Fixpoint mask {A} (keep : list bool) (xs : list A) : list A :=
  match keep, xs with
  | b :: keep', x :: xs' => if b then x :: mask keep' xs' else mask keep' xs'
  | _, _ => []
  end.

Definition column_mask (keep : list bool) (c : column) : column :=
  match c with
  | Numeric xs => Numeric (mask keep xs)
  | Object xs => Object (mask keep xs)
  end.

(** One row of the table the function returns (columns 顧客名, 売上金額 and,
    when the table has it, 粗利益(B-L)).  [gross_profit] is read only when
    the table has the column. *)
Record AggRow : Type := mkAggRow {
  customer_name : str;
  sales : Qc;
  gross_profit : num
}.

Record AggTable : Type := mkAggTable {
  has_profit : bool;
  agg_rows : list AggRow
}.

(** [df.groupby(key)[col].sum().reset_index()]: rows with a missing key are
    left out, NaN values are skipped by the sum, groups come in key order. *)
Definition group_keys (recs : list (option str * num)) : list str :=
  sort_keys
    (nodup str_eq_dec
       (flat_map (fun r => match fst r with Some k => [k] | None => [] end) recs)).

Definition in_group (k : str) (r : option str * num) : bool :=
  match fst r with Some k' => str_eqb k' k | None => false end.

Definition nansum (vs : list num) : Qc :=
  fold_right (fun v acc => match v with Some q => (q + acc)%Qc | None => acc end)
             (Qc_of_Z 0) vs.

Definition groupby_sum (keys : list (option str)) (vals : list num)
  : list (str * Qc) :=
  let recs := combine keys vals in
  map (fun k => (k, nansum (map snd (filter (in_group k) recs))))
      (group_keys recs).

Definition lookup_sum (k : str) (t : list (str * Qc)) : num :=
  match find (fun r => str_eqb (fst r) k) t with
  | Some r => Some (snd r)
  | None => None
  end.

(** Messages shown through [st.error], [st.info] and [st.warning]. *)
Inductive notice : Type :=
| Error_missing_required (cols : list string)
| Info_required_columns
| Warning_missing_optional (cols : list string)
| Info_rows_excluded
| Error_amount_not_numeric
| Warning_profit_not_numeric
| Error_processing (e : exn).

(** Computations that show messages and may raise. *)
Definition M (A : Type) : Type := list notice -> result A * list notice.

Definition ret {A} (a : A) : M A := fun log => (Return a, log).

Definition bind {A B} (m : M A) (k : A -> M B) : M B :=
  fun log =>
    match m log with
    | (Return a, log') => k a log'
    | (Raise e, log') => (Raise e, log')
    end.

Definition show (n : notice) : M unit := fun log => (Return tt, log ++ [n]).

Definition lift {A} (r : result A) : M A := fun log => (r, log).

Definition try_except {A} (body : M A) (handler : exn -> M A) : M A :=
  fun log =>
    match body log with
    | (Return a, log') => (Return a, log')
    | (Raise e, log') => handler e log'
    end.

Declare Scope py_scope.
Delimit Scope py_scope with py.
Notation "x <- m ;; k" := (bind m (fun x => k))
  (at level 61, m at next level, right associativity) : py_scope.
Notation "m ;; k" := (bind m (fun _ => k))
  (at level 61, right associativity) : py_scope.

(** The table as it stands at line 72, after the amount column has been
    dealt with. *)
Record Retained : Type := mkRetained {
  kept_customer : list (option str);
  kept_amount : list num;
  kept_profit : option column
}.

Section Ingestion.
Variable File : Type.
(** [pd.read_excel]. *)
Variable read_excel : File -> result DataFrame.
(** [pd.to_numeric(column, errors='coerce')] on an object column: the
    numeric column it returns (NaN where a cell is not a number), or the
    exception it raises. *)
Variable to_numeric : list cell -> result (list num).

Local Open Scope py_scope.

Definition required_columns : list string := [COL_CUSTOMER; COL_AMOUNT].
Definition optional_columns : list string := [COL_HANDLER; COL_ITEM; COL_PROFIT].

(** Lines 63-70.  [None] is the early [return None]. *)
Definition coerce_amount (customers : list (option str)) (amounts : column)
           (profit : option column) : M (option Retained) :=
  match amounts with
  | Object xs =>
      try_except
        (ys <- lift (to_numeric xs) ;;
         let keep := map notna ys in
         show Info_rows_excluded ;;
         ret (Some (mkRetained (mask keep customers) (mask keep ys)
                               (option_map (column_mask keep) profit))))
        (fun _ => show Error_amount_not_numeric ;; ret None)
  | Numeric ys => ret (Some (mkRetained customers ys profit))
  end.

(** Lines 77-81. *)
Definition coerce_profit (c : column) : M column :=
  match c with
  | Object xs =>
      try_except
        (ys <- lift (to_numeric xs) ;; ret (Numeric ys))
        (fun _ => show Warning_profit_not_numeric ;; ret c)
  | Numeric _ => ret c
  end.

(** Line 88 on a table of amount sums alone. *)
Definition without_profit (result_df : list (str * Qc)) : AggTable :=
  mkAggTable false (map (fun r => mkAggRow (fst r) (snd r) None) result_df).

(** Lines 83-85 and 88: the left merge of the profit sums when the profit
    column is numeric, and the renaming of the columns. *)
Definition with_profit (customers : list (option str))
           (result_df : list (str * Qc)) (c : column) : AggTable :=
  match c with
  | Numeric ys =>
      let profit_by_customer := groupby_sum customers ys in
      mkAggTable true
        (map (fun r => mkAggRow (fst r) (snd r)
                          (lookup_sum (fst r) profit_by_customer))
             result_df)
  | Object _ => without_profit result_df
  end.

(** Lines 72-90. *)
Definition aggregate (df : Retained) : M AggTable :=
  let result_df := groupby_sum (kept_customer df) (kept_amount df) in
  match kept_profit df with
  | Some c =>
      c' <- coerce_profit c ;;
      ret (with_profit (kept_customer df) result_df c')
  | None => ret (without_profit result_df)
  end.

(** Lines 44-90, the body of the outer [try]. *)
Definition process_body (file : File) : M (option AggTable) :=
  df <- lift (read_excel file) ;;
  let missing_columns := filter (not_in (columns df)) required_columns in
  match missing_columns with
  | _ :: _ =>
      show (Error_missing_required missing_columns) ;;
      show Info_required_columns ;;
      ret None
  | [] =>
      let missing_optional := filter (not_in (columns df)) optional_columns in
      match missing_optional with
      | _ :: _ => show (Warning_missing_optional missing_optional)
      | [] => ret tt
      end ;;
      match col_customer df, col_amount df with
      | Some customers, Some amounts =>
          kept <- coerce_amount customers amounts (col_profit df) ;;
          match kept with
          | Some df' => t <- aggregate df' ;; ret (Some t)
          | None => ret None
          end
      | _, _ => lift (Raise (LibraryError "KeyError"))
      end
  end.

(** Lines 39-94. *)
Definition process_excel_data (file : File) : M (option AggTable) :=
  try_except (process_body file)
             (fun e => show (Error_processing e) ;; ret None).

End Ingestion.

(* ------------------------------------------------------------------ *)
(** ** Reconciliation: analyze_sales_data *)

(** A row of the outer merge (line 102).  The two amount columns are
    売上金額_前年 and 売上金額_今年; a profit column is there when the table
    of that side has one. *)
Record MergedRow : Type := mkMergedRow {
  m_customer : str;
  m_prior : num;
  m_current : num;
  m_profit_prior : option num;
  m_profit_current : option num
}.

Definition keys (t : AggTable) : list str := map customer_name (agg_rows t).

Definition matching (k : str) (t : AggTable) : list AggRow :=
  filter (fun r => str_eqb (customer_name r) k) (agg_rows t).

Definition profit_cell (t : AggTable) (r : option AggRow) : option num :=
  if has_profit t
  then Some (match r with Some a => gross_profit a | None => None end)
  else None.

Definition join_row (L R : AggTable) (k : str) (l r : option AggRow)
  : MergedRow :=
  mkMergedRow k (option_map sales l) (option_map sales r)
              (profit_cell L l) (profit_cell R r).

(** The rows of one key: every left row with every right row, or the rows
    of the one side with NaN for the other. *)
Definition join_key (L R : AggTable) (k : str) : list MergedRow :=
  match matching k L, matching k R with
  | [], rs => map (fun r => join_row L R k None (Some r)) rs
  | ls, [] => map (fun l => join_row L R k (Some l) None) ls
  | ls, rs =>
      flat_map (fun l => map (fun r => join_row L R k (Some l) (Some r)) rs) ls
  end.

(** [pd.merge(L, R, on='顧客名', how='outer')]: the union of the keys, in
    lexicographic order. *)
Definition pd_merge_outer (L R : AggTable) : list MergedRow :=
  flat_map (join_key L R)
           (sort_keys (nodup str_eq_dec (keys L ++ keys R))).

Record FilledRow : Type := mkFilledRow {
  f_customer : str;
  f_prior : Qc;
  f_current : Qc;
  f_profit_prior : option Qc;
  f_profit_current : option Qc
}.

Definition zero : Qc := Qc_of_Z 0.

Definition fill0 (x : num) : Qc :=
  match x with Some q => q | None => zero end.

(** [fillna(0)] (line 105). *)
Definition fillna (r : MergedRow) : FilledRow :=
  mkFilledRow (m_customer r) (fill0 (m_prior r)) (fill0 (m_current r))
              (option_map fill0 (m_profit_prior r))
              (option_map fill0 (m_profit_current r)).

(** A cell of the column 増減率. *)
Inductive rate_cell : Type :=
| RateFloat (q : Qc)
| RateInf
| RateInt (z : Z)
| RateText (s : string).

Definition NEW_OR_LOST : string := "新規/完全減少".

Record CalcRow : Type := mkCalcRow {
  c_customer : str;
  c_prior : Qc;
  c_current : Qc;
  c_profit_prior : option Qc;
  c_profit_current : option Qc;
  c_delta : Qc;
  c_rate : rate_cell
}.

(** Lines 108-115: 増減額 and 増減率. *)
Definition add_delta_rate (r : FilledRow) : CalcRow :=
  let delta := (f_current r - f_prior r)%Qc in
  mkCalcRow (f_customer r) (f_prior r) (f_current r)
            (f_profit_prior r) (f_profit_current r)
            delta
            (if negb (Qc_eqb (f_prior r) zero)
             then RateFloat (delta / f_prior r * hundred)%Qc
             else RateInf).

Definition with_rate (r : CalcRow) (c : rate_cell) : CalcRow :=
  mkCalcRow (c_customer r) (c_prior r) (c_current r)
            (c_profit_prior r) (c_profit_current r) (c_delta r) c.

(** Line 118. *)
Definition replace_inf (r : CalcRow) : CalcRow :=
  match c_rate r with
  | RateInf => with_rate r (RateText NEW_OR_LOST)
  | _ => r
  end.

Definition is_text (c : rate_cell) : bool :=
  match c with RateText _ => true | _ => false end.

(** The rate column has dtype float64, and so is among the columns
    [select_dtypes] returns, when no cell of it is a string. *)
Definition rate_is_numeric (rows : list CalcRow) : bool :=
  forallb (fun r => negb (is_text (c_rate r))) rows.

Definition round_rate (c : rate_cell) : rate_cell :=
  match c with
  | RateFloat q => RateInt (round_half_even q)
  | other => other
  end.

(** A row of the table the function returns. *)
Record Row : Type := mkRow {
  customer : option str;
  sales_prior : Z;
  sales_current : Z;
  profit_prior : option Z;
  profit_current : option Z;
  delta : Z;
  rate : rate_cell
}.

Definition round_row (with_the_rate : bool) (r : CalcRow) : Row :=
  mkRow (Some (c_customer r))
        (round_half_even (c_prior r))
        (round_half_even (c_current r))
        (option_map round_half_even (c_profit_prior r))
        (option_map round_half_even (c_profit_current r))
        (round_half_even (c_delta r))
        (if with_the_rate then round_rate (c_rate r) else c_rate r).

(** Lines 121-123.  The amount, profit and delta columns are numeric and are
    rounded; the rate column is visited only when it is numeric, and then
    its first cell is inspected, which fails on a table without rows. *)
Definition round_columns (rows : list CalcRow) : result (list Row) :=
  if rate_is_numeric rows then
    match rows with
    | [] => Raise IndexError
    | r0 :: _ =>
        Return (map (round_row (negb (is_text (c_rate r0)))) rows)
    end
  else Return (map (round_row false) rows).

(** Lines 102-118: the table before the rounding. *)
Definition unrounded (last_year this_year : AggTable) : list CalcRow :=
  let merged_df := pd_merge_outer last_year this_year in
  let merged_df := map fillna merged_df in
  let merged_df := map add_delta_rate merged_df in
  map replace_inf merged_df.

Definition analyze_sales_data {S : SortValues} (last_year this_year : AggTable)
  : result (list Row) :=
  rbind (round_columns (unrounded last_year this_year))
        (fun merged_df => Return (sort_values sales_current merged_df)).

(** *** The float64 arithmetic of lines 108-113 *)

(** Two to the power [k], also for a negative [k]. *)
Definition pow2 (k : Z) : Qc :=
  if (0 <=? k)%Z then Qc_of_Z (2 ^ k) else (/ Qc_of_Z (2 ^ (- k)))%Qc.

Definition Qc_abs (q : Qc) : Qc := if Qc_ltb q zero then (- q)%Qc else q.

(** The binary exponent [e] of a positive rational: [2^e <= q < 2^(e+1)]. *)
Definition binary_exponent (q : Qc) : Z :=
  let e := (Z.log2 (Qnum q) - Z.log2 (Zpos (Qden q)))%Z in
  if Qc_ltb q (pow2 e) then (e - 1)%Z else e.

(** The distance between neighbouring doubles around [q]: 53 bits of
    precision, and the fixed distance 2^-1074 below 2^-1022. *)
Definition ulp64 (q : Qc) : Qc :=
  pow2 (Z.max (binary_exponent (Qc_abs q) - 52) (-1074)).

(** The double nearest to [q], halves to the even significand: the
    rounding every float64 operation of numpy ends with. *)
Definition rnd64 (q : Qc) : Qc :=
  if Qc_eqb q zero then zero
  else (Qc_of_Z (round_half_even (q / ulp64 q)) * ulp64 q)%Qc.

Definition f64_sub (a b : Qc) : Qc := rnd64 (a - b).
Definition f64_div (a b : Qc) : Qc := rnd64 (a / b).
Definition f64_mul (a b : Qc) : Qc := rnd64 (a * b).


(** Lines 108-115 as numpy computes them: the subtraction, the division and
    the multiplication by 100 each give the nearest double. *)
Definition add_delta_rate_f64 (r : FilledRow) : CalcRow :=
  let delta := f64_sub (f_current r) (f_prior r) in
  mkCalcRow (f_customer r) (f_prior r) (f_current r)
            (f_profit_prior r) (f_profit_current r)
            delta
            (if negb (Qc_eqb (f_prior r) zero)
             then RateFloat (f64_mul (f64_div delta (f_prior r)) hundred)
             else RateInf).

Definition unrounded_f64 (last_year this_year : AggTable) : list CalcRow :=
  let merged_df := pd_merge_outer last_year this_year in
  let merged_df := map fillna merged_df in
  let merged_df := map add_delta_rate_f64 merged_df in
  map replace_inf merged_df.

Definition analyze_sales_data_f64 {S : SortValues} (last_year this_year : AggTable)
  : result (list Row) :=
  rbind (round_columns (unrounded_f64 last_year this_year))
        (fun merged_df => Return (sort_values sales_current merged_df)).

(* ------------------------------------------------------------------ *)
(** ** Filtering and summary (lines 148-212) *)

(** The three entries of the selectbox: すべて表示, 増加のみ, 減少のみ. *)
Inductive ChangeOption : Type :=
| ShowAll
| IncreaseOnly
| DecreaseOnly.

(** The code points of the fourteen characters with a meaning of their own
    in a Python regular expression: dot, caret, dollar, star, plus, question
    mark, the braces, the brackets, backslash, bar and the parentheses. *)
Definition special : list N :=
  [46; 94; 36; 42; 43; 63; 123; 125; 91; 93; 92; 124; 40; 41]%N.

Definition is_special (c : N) : bool := existsb (N.eqb c) special.

Definition DOT : N := 46%N.
Definition NEWLINE : N := 10%N.

(** The fragment of the pattern language written out here: ordinary
    characters and the dot. *)
Inductive atom : Type :=
| Lit (c : N)
| AnyChar.

Fixpoint parse (pat : str) : option (list atom) :=
  match pat with
  | [] => Some []
  | c :: pat' =>
      match parse pat' with
      | Some atoms =>
          if N.eqb c DOT then Some (AnyChar :: atoms)
          else if is_special c then None
          else Some (Lit c :: atoms)
      | None => None
      end
  end.

Section Search.
(** Whether two characters are equal under [re.IGNORECASE]. *)
Variable ci_eqb : N -> N -> bool.
(** [re.compile(pat, re.IGNORECASE)] for the patterns outside the
    fragment: [None] when it raises, else the predicate
    [fun s => pat.search(s) is not None]. *)
Variable re_other : str -> option (str -> bool).

Definition atom_matches (a : atom) (d : N) : bool :=
  match a with
  | Lit c => ci_eqb c d
  | AnyChar => negb (N.eqb d NEWLINE)
  end.

Fixpoint match_here (atoms : list atom) (s : str) : bool :=
  match atoms, s with
  | [], _ => true
  | _ :: _, [] => false
  | a :: atoms', d :: s' => atom_matches a d && match_here atoms' s'
  end.

Fixpoint search (atoms : list atom) (s : str) : bool :=
  match_here atoms s ||
  match s with
  | [] => false
  | _ :: s' => search atoms s'
  end.

Definition re_compile (pat : str) : option (str -> bool) :=
  match parse pat with
  | Some atoms => Some (search atoms)
  | None => re_other pat
  end.

(** [Series.str.contains(pat, case=False, na=False)] on one cell, the
    pattern already compiled. *)
Definition str_contains (found : str -> bool) (c : option str) : bool :=
  match c with
  | Some s => found s
  | None => false
  end.

Definition in_range (selected_range : Z * Z) (r : Row) : bool :=
  (fst selected_range <=? sales_current r)%Z &&
  (sales_current r <=? snd selected_range)%Z.

(** Lines 172-188. *)
Definition filtering (comparison_df : list Row) (selected_range : Z * Z)
           (selected_change : ChangeOption) (search_term : str)
  : result (list Row) :=
  let filtered_df := comparison_df in
  let filtered_df := filter (in_range selected_range) filtered_df in
  let filtered_df :=
    match selected_change with
    | IncreaseOnly => filter (fun r => (0 <? delta r)%Z) filtered_df
    | DecreaseOnly => filter (fun r => (delta r <? 0)%Z) filtered_df
    | ShowAll => filtered_df
    end in
  match search_term with
  | [] => Return filtered_df
  | _ :: _ =>
      match re_compile search_term with
      | Some found =>
          Return (filter (fun r => str_contains found (customer r)) filtered_df)
      | None => Raise ReError
      end
  end.

(** Lines 156-157: [int(column.min())] and [int(column.max())]; of a
    column without rows both are NaN, which [int] refuses. *)
Definition min_amount (comparison_df : list Row) : result Z :=
  match comparison_df with
  | [] => Raise ValueError
  | r :: rows => Return (fold_right Z.min (sales_current r) (map sales_current rows))
  end.

Definition max_amount (comparison_df : list Row) : result Z :=
  match comparison_df with
  | [] => Raise ValueError
  | r :: rows => Return (fold_right Z.max (sales_current r) (map sales_current rows))
  end.

(** The fourth metric: a percentage or 計算不能. *)
Inductive rate_metric : Type :=
| Percent (q : Qc)
| NotComputable.

Record Metrics : Type := mkMetrics {
  prior_total : Z;
  current_total : Z;
  total_change : Z;
  change_rate : rate_metric
}.

Definition column_sum (col : Row -> Z) (rows : list Row) : Z :=
  fold_right Z.add 0%Z (map col rows).

(** Lines 198-212. *)
Definition summary (comparison_df : list Row) : Metrics :=
  let prior_sum := column_sum sales_prior comparison_df in
  let total_change := column_sum delta comparison_df in
  mkMetrics prior_sum
            (column_sum sales_current comparison_df)
            total_change
            (if (0 <? prior_sum)%Z
             then Percent (Qc_of_Z total_change / Qc_of_Z prior_sum * hundred)%Qc
             else NotComputable).

(** [st.session_state]. *)
Record SessionState : Type := mkSessionState {
  last_year_data : option AggTable;
  this_year_data : option AggTable;
  analysis_done : bool;
  comparison_df : option (list Row)
}.

(** What the page shows: the filtered table and the four metrics. *)
Record Shown : Type := mkShown {
  filtered_df : list Row;
  metrics : Metrics
}.

(** Lines 158-161: [st.slider] with the two bounds of lines 156-157.
    Streamlit refuses a slider whose bounds are equal; the range the user
    selects is an argument of [show_results].  Bounds of 2^53 and more,
    which are beyond the numbers a widget can hold, are outside the
    embedding. *)
Definition slider (min_value max_value : Z) : result unit :=
  if (min_value <? max_value)%Z then Return tt
  else Raise (LibraryError "StreamlitInvalidMinMaxError").

(** Lines 148-212, with the values the three widgets return as
    arguments.  The session state is returned as the block leaves it. *)
Definition show_results (state : SessionState) (selected_range : Z * Z)
           (selected_change : ChangeOption) (search_term : str)
  : result (SessionState * option Shown) :=
  match analysis_done state, comparison_df state with
  | true, Some df =>
      rbind (min_amount df) (fun min_amount =>
      rbind (max_amount df) (fun max_amount =>
      rbind (slider min_amount max_amount) (fun _ =>
      rbind (filtering df selected_range selected_change search_term)
            (fun filtered => Return (state, Some (mkShown filtered (summary df)))))))
  | _, _ => Return (state, None)
  end.

End Search.

(** Case folding of the ASCII letters, for the examples. *)
Definition ascii_lower (c : N) : N :=
  if (N.leb 65 c && N.leb c 90)%bool then (c + 32)%N else c.

Definition ascii_ci_eqb (c d : N) : bool := N.eqb (ascii_lower c) (ascii_lower d).

Definition no_other : str -> option (str -> bool) := fun _ => None.

(* ------------------------------------------------------------------ *)
(** ** Vocabulary of the statements *)

(** The row of a customer in a table, if any. *)
Definition lookup (c : str) (t : AggTable) : option AggRow :=
  find (fun r => str_eqb (customer_name r) c) (agg_rows t).

(** Selecting the rows of one customer at each stage. *)
Definition merged_is (c : str) (r : MergedRow) : bool := str_eqb (m_customer r) c.
Definition filled_is (c : str) (r : FilledRow) : bool := str_eqb (f_customer r) c.
Definition calc_is (c : str) (r : CalcRow) : bool := str_eqb (c_customer r) c.
Definition customer_is (c : str) (r : Row) : bool :=
  match customer r with Some k => str_eqb k c | None => false end.

(** The rate cell of a row as line 118 leaves it. *)
Definition rate_before_rounding (w : CalcRow) : rate_cell :=
  if Qc_eqb (c_prior w) zero
  then RateText NEW_OR_LOST
  else RateFloat (c_delta w / c_prior w * hundred)%Qc.

Definition has_zero_prior (rows : list CalcRow) : bool :=
  existsb (fun w => Qc_eqb (c_prior w) zero) rows.

(** The same cell with the quotient and the product rounded to doubles. *)
Definition rate_before_rounding_f64 (w : CalcRow) : rate_cell :=
  if Qc_eqb (c_prior w) zero
  then RateText NEW_OR_LOST
  else RateFloat (f64_mul (f64_div (c_delta w) (c_prior w)) hundred).

(** What a row holds apart from the values of its delta and of its rate. *)
Definition amounts_of (w : CalcRow)
  : str * Qc * Qc * option Qc * option Qc * bool :=
  (c_customer w, c_prior w, c_current w, c_profit_prior w, c_profit_current w,
   is_text (c_rate w)).

(** The number a rate cell holds, if it holds one. *)
Definition rate_value (c : rate_cell) : option Qc :=
  match c with
  | RateFloat q => Some q
  | RateInt z => Some (Qc_of_Z z)
  | RateInf | RateText _ => None
  end.

(** The spec's reading of the search: some window of the name equals the
    term, letter case aside. *)
Definition ci_equal (ci_eqb : N -> N -> bool) (a b : str) : bool :=
  Nat.eqb (List.length a) (List.length b) &&
  forallb (fun p => ci_eqb (fst p) (snd p)) (combine a b).

Definition contains_ci (ci_eqb : N -> N -> bool) (term s : str) : bool :=
  existsb (fun i => ci_equal ci_eqb term (firstn (List.length term) (skipn i s)))
          (seq 0 (S (List.length s))).

Definition name_matches (ci_eqb : N -> N -> bool) (term : str) (r : Row) : bool :=
  match customer r with
  | Some s => contains_ci ci_eqb term s
  | None => false
  end.

(** The selectbox as a test on one row. *)
Definition change_matches (selected_change : ChangeOption) (r : Row) : bool :=
  match selected_change with
  | ShowAll => true
  | IncreaseOnly => (0 <? delta r)%Z
  | DecreaseOnly => (delta r <? 0)%Z
  end.

(** A search term without characters that mean something in a pattern. *)
Definition plain (term : str) : bool := forallb (fun c => negb (is_special c)) term.

(* ------------------------------------------------------------------ *)
(** ** Sample data *)

(** A table without profit column, from names and amounts. *)
Definition tbl (rows : list (string * Z)) : AggTable :=
  mkAggTable false
    (map (fun r => mkAggRow (str_of (fst r)) (Qc_of_Z (snd r)) None) rows).

(** The spec's scenario: prior = {A:100, B:200}, current = {A:150, C:50}. *)
Definition scenario_prior : AggTable := tbl [("A", 100); ("B", 200)]%string%Z.
Definition scenario_current : AggTable := tbl [("A", 150); ("C", 50)]%string%Z.

Definition row_A : Row :=
  mkRow (Some (str_of "A")) 100 150 None None 50 (RateFloat (Qc_of_Z 50)).
Definition row_C : Row :=
  mkRow (Some (str_of "C")) 0 50 None None 50 (RateText NEW_OR_LOST).
Definition row_B : Row :=
  mkRow (Some (str_of "B")) 200 0 None None (-200) (RateFloat (Qc_of_Z (-100))).

(** The rows the spec expects for its scenario, in its order. *)
Definition scenario_out : list Row := [row_A; row_C; row_B].

Definition scenario_state : SessionState :=
  mkSessionState (Some scenario_prior) (Some scenario_current) true
                 (Some scenario_out).

(** A period with more returns than orders for one customer. *)
Definition returns_prior : AggTable := tbl [("A", -100); ("B", 30)]%string%Z.
Definition returns_current : AggTable := tbl [("A", 50); ("B", 20)]%string%Z.
Definition returns_out : list Row :=
  [ mkRow (Some (str_of "A")) (-100) 50 None None 150 (RateInt (-150));
    mkRow (Some (str_of "B")) 30 20 None None (-10) (RateInt (-33)) ].

(** Two customers with longer names. *)
Definition names_prior : AggTable := tbl [("ABC", 5); ("XYZ", 30)]%string%Z.
Definition names_current : AggTable := tbl [("ABC", 10); ("XYZ", 12)]%string%Z.
Definition row_XYZ : Row :=
  mkRow (Some (str_of "XYZ")) 30 12 None None (-18) (RateInt (-60)).
Definition row_ABC : Row :=
  mkRow (Some (str_of "ABC")) 5 10 None None 5 (RateInt 100).
Definition names_out : list Row := [row_XYZ; row_ABC].

Definition session (df : list Row) : SessionState :=
  mkSessionState None None true (Some df).

(** The conversion of the examples: a cell that is not a number becomes
    NaN, as [pd.to_numeric(errors='coerce')] does with a text that does not
    read as a number. *)
Definition to_numeric_numbers (xs : list cell) : result (list num) :=
  Return (map (fun c => match c with CNum q => Some q | _ => None end) xs).

(** Two readers: one for a file that parses, one for a file that does not. *)
Definition parsed (df : DataFrame) : result DataFrame := Return df.

Definition unreadable (df : DataFrame) : result DataFrame :=
  Raise (LibraryError "BadZipFile").

(** A sheet whose amount column is numeric with one empty cell. *)
Definition sheet_with_gap : DataFrame :=
  mkDataFrame (Some [Some (str_of "A"); Some (str_of "B")])
              (Some (Numeric [Some (Qc_of_Z 100); None]))
              false false None.

(** A sheet whose amount column holds a text cell, and so has dtype
    object. *)
Definition sheet_with_text : DataFrame :=
  mkDataFrame (Some [Some (str_of "A"); Some (str_of "B"); Some (str_of "A")])
              (Some (Object [CNum (Qc_of_Z 100); CText (str_of "n/a");
                             CNum (Qc_of_Z 50)]))
              true true None.

Definition sheet_without_amount : DataFrame :=
  mkDataFrame (Some [Some (str_of "A")]) None false false None.

(** Records whose profit column holds text. *)
Definition kept_with_text_profit : Retained :=
  mkRetained [Some (str_of "A"); Some (str_of "A")]
             [Some (Qc_of_Z 100); Some (Qc_of_Z 20)]
             (Some (Object [CText (str_of "x"); CNum (Qc_of_Z 7)])).

(** A sheet whose profit column holds text only. *)
Definition sheet_with_text_profit : DataFrame :=
  mkDataFrame (Some [Some (str_of "A"); Some (str_of "B")])
              (Some (Numeric [Some (Qc_of_Z 100); Some (Qc_of_Z 20)]))
              true true
              (Some (Object [CText (str_of "x"); CText (str_of "y")])).

(* ------------------------------------------------------------------ *)
(** ** The rest of the page: uploads and chart rows *)

Section Uploads.
Variable File : Type.
Variable read_excel : File -> result DataFrame.
Variable to_numeric : list cell -> result (list num).
Context {S : SortValues}.

(** Lines 131-145.  An uploader without a file gives [None].  The result
    tells whether [st.success] was reached; the session state and the
    messages are returned as the block leaves them, also when it raises. *)
Definition upload_block (state : SessionState)
           (last_year_file this_year_file : option File) (log : list notice)
  : SessionState * list notice * result bool :=
  match last_year_file, this_year_file with
  | Some f1, Some f2 =>
      match process_excel_data read_excel to_numeric f1 log with
      | (Raise e, log1) => (state, log1, Raise e)
      | (Return last_year_data, log1) =>
          match process_excel_data read_excel to_numeric f2 log1 with
          | (Raise e, log2) => (state, log2, Raise e)
          | (Return this_year_data, log2) =>
              match last_year_data, this_year_data with
              | Some last_year, Some this_year =>
                  let state :=
                    mkSessionState (Some last_year) (Some this_year)
                                   (analysis_done state) (comparison_df state) in
                  match analyze_sales_data last_year this_year with
                  | Return df =>
                      (mkSessionState (Some last_year) (Some this_year) true (Some df),
                       log2, Return true)
                  | Raise e => (state, log2, Raise e)
                  end
              | _, _ => (state, log2, Return false)
              end
          end
      end
  | _, _ => (state, log, Return false)
  end.

End Uploads.

(** Line 221: [filtered_df.head(top_n)] for the value of the slider of line
    218, which is between 5 and 20. *)
Definition top_customers (filtered : list Row) (top_n : Z) : list Row :=
  firstn (Z.to_nat top_n) filtered.

(** Amounts that are whole numbers. *)
Definition is_whole (q : Qc) : bool := Qc_eqb q (Qc_of_Z (Qfloor q)).

Definition whole_amounts (t : AggTable) : bool :=
  forallb (fun a => is_whole (sales a)) (agg_rows t).

(** The sum of a column of sums. *)
Definition total (t : list (str * Qc)) : Qc :=
  fold_right (fun r acc => (snd r + acc)%Qc) zero t.

(** The records of a customer, and the records with a customer. *)
Definition has_customer (r : option str * num) : bool := present (fst r).

(** The customers and amount sums of a table. *)
Definition sales_of (t : AggTable) : list (str * Qc) :=
  map (fun a => (customer_name a, sales a)) (agg_rows t).

(** A whole number, as a proposition. *)
Definition whole (q : Qc) : Prop := exists z, q = Qc_of_Z z.

(** Sums over groups: the sum of the records of one customer, the sum of
    that over a list of customers, and the records whose customer is in a
    list. *)
Definition group_sum (recs : list (option str * num)) (k : str) : Qc :=
  nansum (map snd (filter (in_group k) recs)).

Definition sum_over (f : str -> Qc) (ks : list str) : Qc :=
  fold_right (fun k acc => (f k + acc)%Qc) zero ks.

Definition mem (k : str) (ks : list str) : bool := existsb (str_eqb k) ks.

Definition known (ks : list str) (r : option str * num) : bool :=
  match fst r with
  | Some k => mem k ks
  | None => false
  end.

(* ------------------------------------------------------------------ *)
(** ** Further sample data *)

(** The table of [sheet_with_gap]. *)
Definition gap_table : AggTable :=
  mkAggTable false [mkAggRow (str_of "A") (Qc_of_Z 100) None;
                    mkAggRow (str_of "B") (Qc_of_Z 0) None].

(** A sheet with its header line only, and its table. *)
Definition sheet_without_rows : DataFrame :=
  mkDataFrame (Some []) (Some (Numeric [])) true true None.

Definition table_without_rows : AggTable := mkAggTable false [].

(** Three records of two customers, with a numeric profit column. *)
Definition kept_with_profit : Retained :=
  mkRetained [Some (str_of "B"); Some (str_of "A"); Some (str_of "B")]
             [Some (Qc_of_Z 10); Some (Qc_of_Z 20); Some (Qc_of_Z 30)]
             (Some (Numeric [Some (Qc_of_Z 1); None; Some (Qc_of_Z 3)])).

(* ------------------------------------------------------------------ *)
(** * Properties *)

(** ** Insertion into an ordered list *)

Section InsertionPerm.
Variable A : Type.
Variable before : A -> A -> bool.

Lemma insert_perm x l : Permutation (x :: l) (insert before x l).
Proof.
  induction l as [|y l IH]; simpl.
  - apply Permutation_refl.
  - destruct (before x y).
    + apply Permutation_refl.
    + eapply Permutation_trans; [apply perm_swap|].
      apply perm_skip. exact IH.
Qed.

Lemma isort_perm l : Permutation l (isort before l).
Proof.
  induction l as [|x l IH]; simpl.
  - apply perm_nil.
  - eapply Permutation_trans; [apply perm_skip, IH|]. apply insert_perm.
Qed.
End InsertionPerm.

Section InsertionSorted.
Variable A : Type.
Variable before : A -> A -> bool.
Variable R : A -> A -> Prop.
Hypothesis before_true : forall x y, before x y = true -> R x y.
Hypothesis before_false : forall x y, before x y = false -> R y x.

Lemma insert_HdRel a x l : R a x -> HdRel R a l -> HdRel R a (insert before x l).
Proof.
  intros Hax Hl. destruct l as [|y l]; simpl.
  - constructor. exact Hax.
  - destruct (before x y); constructor.
    + exact Hax.
    + inversion Hl; assumption.
Qed.

Lemma insert_sorted x l : Sorted R l -> Sorted R (insert before x l).
Proof.
  induction 1 as [|y l Hs IH Hd]; simpl.
  - repeat constructor.
  - destruct (before x y) eqn:E.
    + constructor; [constructor; assumption|].
      constructor. apply before_true; exact E.
    + constructor; [exact IH|].
      apply insert_HdRel; [apply before_false; exact E | exact Hd].
Qed.

Lemma isort_sorted l : Sorted R (isort before l).
Proof.
  induction l as [|x l IH]; simpl.
  - constructor.
  - apply insert_sorted. exact IH.
Qed.
End InsertionSorted.

#[refine] Instance stable_sort : SortValues :=
  {| sort_values := fun A key l => isort (stable_before key) l |}.
Proof.
  - intros. apply isort_perm.
  - intros. apply isort_sorted; unfold stable_before; intros x y H.
    + apply Z.leb_le. exact H.
    + apply Z.leb_gt in H. lia.
Defined.

(** ** Rounding *)

Lemma this_Qc_of_Z z : (this (Qc_of_Z z) == inject_Z z)%Q.
Proof. unfold Qc_of_Z, Q2Qc. cbn [this]. apply Qred_correct. Qed.

Lemma Qc_ltb_spec a b : Qc_ltb a b = true <-> (this a < this b)%Q.
Proof.
  unfold Qc_ltb, Qccompare. rewrite Qlt_alt.
  destruct (this a ?= this b)%Q; split; congruence.
Qed.

Lemma nearest_cases (x y r h : Q) (b1 b2 b3 : bool) :
  (h == 1 # 2)%Q -> (y <= x)%Q -> (x < y + 1)%Q -> (r == x - y)%Q ->
  (b1 = true <-> (r < h)%Q) -> (b2 = true <-> (h < r)%Q) ->
  (Qabs (x - (if b1 then y else if b2 then y + 1 else if b3 then y else y + 1))
   <= 1 # 2)%Q.
Proof.
  intros Hh Hlo Hhi Hr H1 H2.
  apply Qabs_Qle_condition.
  destruct b1.
  - assert (r < h)%Q by (apply H1; reflexivity). split; lra.
  - assert (~ (r < h)%Q) by (intro; assert (false = true) by (apply H1; assumption); discriminate).
    destruct b2.
    + split; lra.
    + assert (~ (h < r)%Q) by (intro; assert (false = true) by (apply H2; assumption); discriminate).
      destruct b3; split; lra.
Qed.

Lemma round_half_even_nearest (q : Qc) :
  (Qabs (this q - inject_Z (round_half_even q)) <= 1 # 2)%Q.
Proof.
  unfold round_half_even.
  set (f := Qfloor (this q)).
  set (r := (q - Qc_of_Z f)%Qc).
  pose proof (@nearest_cases (this q) (inject_Z f) (this r) (this half)
                (Qc_ltb r half) (Qc_ltb half r) (Z.even f)) as H.
  assert (E : (inject_Z
            (if Qc_ltb r half then f
             else if Qc_ltb half r then (f + 1)%Z
                  else if Z.even f then f else (f + 1)%Z) ==
          (if Qc_ltb r half then inject_Z f
           else if Qc_ltb half r then inject_Z f + 1
                else if Z.even f then inject_Z f else inject_Z f + 1))%Q).
  { destruct (Qc_ltb r half), (Qc_ltb half r), (Z.even f);
      try reflexivity; rewrite inject_Z_plus; reflexivity. }
  rewrite E. apply H.
  - vm_compute. reflexivity.
  - apply Qfloor_le.
  - pose proof (Qlt_floor (this q)) as Hhi.
    rewrite inject_Z_plus in Hhi. exact Hhi.
  - unfold r, Qcminus, Qcplus, Qcopp, Q2Qc. cbn [this].
    rewrite !Qred_correct. rewrite this_Qc_of_Z. reflexivity.
  - apply Qc_ltb_spec.
  - apply Qc_ltb_spec.
Qed.

Example round_half_even_ties :
  map round_half_even [Q2Qc (1 # 2); Q2Qc (3 # 2); Q2Qc (5 # 2); Q2Qc (-1 # 2);
                       Q2Qc (7 # 3); Q2Qc (-100 # 3)] =
  [0; 2; 2; 0; 2; -33]%Z.
Proof. vm_compute. reflexivity. Qed.

Lemma round_half_even_whole z : round_half_even (Qc_of_Z z) = z.
Proof.
  unfold round_half_even.
  assert (Hf : Qfloor (Qc_of_Z z) = z).
  { rewrite (Qfloor_comp _ _ (this_Qc_of_Z z)). apply Qfloor_Z. }
  rewrite Hf.
  assert (Hr : (Qc_of_Z z - Qc_of_Z z)%Qc = Q2Qc 0) by ring.
  rewrite Hr. reflexivity.
Qed.

Lemma Qc_of_Z_minus a b : (Qc_of_Z a - Qc_of_Z b)%Qc = Qc_of_Z (a - b).
Proof.
  apply Qc_is_canon.
  unfold Qcminus, Qcplus, Qcopp, Q2Qc. cbn [this].
  rewrite !Qred_correct, !this_Qc_of_Z.
  unfold Z.sub. rewrite inject_Z_plus, inject_Z_opp. reflexivity.
Qed.

(** ** The outer merge *)

Lemma str_eqb_eq a b : str_eqb a b = true <-> a = b.
Proof. unfold str_eqb. destruct (str_eq_dec a b); split; congruence. Qed.

Lemma str_eqb_refl a : str_eqb a a = true.
Proof. apply str_eqb_eq. reflexivity. Qed.

Lemma str_eqb_neq a b : str_eqb a b = false <-> a <> b.
Proof. unfold str_eqb. destruct (str_eq_dec a b); split; congruence. Qed.

Lemma filter_perm {A} (f : A -> bool) l l' :
  Permutation l l' -> Permutation (filter f l) (filter f l').
Proof.
  induction 1 as [|x l l' _ IH|x y l|l l' l'' _ IH1 _ IH2]; simpl.
  - constructor.
  - destruct (f x); [apply perm_skip|]; exact IH.
  - destruct (f x), (f y); try apply Permutation_refl. apply perm_swap.
  - eapply Permutation_trans; eassumption.
Qed.

Lemma filter_none {A} (f : A -> bool) l :
  (forall x, In x l -> f x = false) -> filter f l = [].
Proof.
  induction l as [|x l IH]; intros H; simpl; [reflexivity|].
  rewrite (H x (or_introl eq_refl)). apply IH. intros y Hy. apply H. right. exact Hy.
Qed.

Lemma filter_all {A} (f : A -> bool) l :
  (forall x, In x l -> f x = true) -> filter f l = l.
Proof.
  induction l as [|x l IH]; intros H; simpl; [reflexivity|].
  rewrite (H x (or_introl eq_refl)). f_equal. apply IH. intros y Hy. apply H. right. exact Hy.
Qed.

(** *** Looking a customer up in a table with distinct keys *)

Lemma lookup_None c t : lookup c t = None <-> ~ In c (keys t).
Proof.
  unfold lookup, keys. induction (agg_rows t) as [|a l IH]; simpl.
  - tauto.
  - destruct (str_eqb (customer_name a) c) eqn:E.
    + apply str_eqb_eq in E. split; [discriminate|]. intros H. exfalso. apply H. left. exact E.
    + apply str_eqb_neq in E. rewrite IH. tauto.
Qed.

Lemma matching_lookup c t :
  NoDup (keys t) ->
  matching c t = match lookup c t with Some a => [a] | None => [] end.
Proof.
  unfold matching, lookup, keys. induction (agg_rows t) as [|a l IH]; simpl; intros Hnd.
  - reflexivity.
  - inversion Hnd as [|? ? Hnotin Hnd']; subst.
    destruct (str_eqb (customer_name a) c) eqn:E.
    + f_equal. apply filter_none. intros x Hx.
      apply str_eqb_neq. apply str_eqb_eq in E. intros Hc. apply Hnotin.
      rewrite E, <- Hc. apply in_map. exact Hx.
    + apply IH. exact Hnd'.
Qed.

Lemma join_key_customer L R k r : In r (join_key L R k) -> m_customer r = k.
Proof.
  unfold join_key. intros H.
  destruct (matching k L) as [|l ls]; [|destruct (matching k R) as [|r0 rs]].
  - apply in_map_iff in H. destruct H as [x [<- _]]. reflexivity.
  - apply in_map_iff in H. destruct H as [x [<- _]]. reflexivity.
  - apply in_flat_map in H. destruct H as [x [_ H]].
    apply in_map_iff in H. destruct H as [y [<- _]]. reflexivity.
Qed.

Lemma join_key_distinct L R c :
  NoDup (keys L) -> NoDup (keys R) -> In c (keys L ++ keys R) ->
  join_key L R c = [join_row L R c (lookup c L) (lookup c R)].
Proof.
  intros HL HR Hin. unfold join_key.
  rewrite !matching_lookup by assumption.
  destruct (lookup c L) eqn:EL, (lookup c R) eqn:ER; simpl; try reflexivity.
  apply lookup_None in EL. apply lookup_None in ER.
  apply in_app_or in Hin. tauto.
Qed.

Lemma rows_of_key L R c ks :
  NoDup ks -> In c ks ->
  filter (merged_is c) (flat_map (join_key L R) ks) = join_key L R c.
Proof.
  induction ks as [|k ks IH]; simpl; intros Hnd Hin; [contradiction|].
  inversion Hnd as [|? ? Hnotin Hnd']; subst.
  rewrite filter_app. destruct Hin as [->|Hin].
  - rewrite filter_all.
    + rewrite filter_none; [apply app_nil_r|].
      intros x Hx. apply in_flat_map in Hx. destruct Hx as [k [Hk Hx]].
      apply join_key_customer in Hx. unfold merged_is. rewrite Hx.
      apply str_eqb_neq. intros ->. contradiction.
    + intros x Hx. apply join_key_customer in Hx. unfold merged_is.
      rewrite Hx. apply str_eqb_refl.
  - rewrite filter_none.
    + simpl. apply IH; assumption.
    + intros x Hx. apply join_key_customer in Hx. unfold merged_is. rewrite Hx.
      apply str_eqb_neq. intros ->. contradiction.
Qed.

Lemma merge_keys_NoDup L R : NoDup (sort_keys (nodup str_eq_dec (keys L ++ keys R))).
Proof.
  eapply Permutation_NoDup; [apply isort_perm | apply NoDup_nodup].
Qed.

Lemma merge_keys_In L R c :
  In c (sort_keys (nodup str_eq_dec (keys L ++ keys R))) <-> In c (keys L ++ keys R).
Proof.
  unfold sort_keys. split; intros H.
  - apply (nodup_In str_eq_dec).
    eapply Permutation_in; [apply Permutation_sym, isort_perm | exact H].
  - eapply Permutation_in; [apply isort_perm |]. apply nodup_In. exact H.
Qed.

Lemma merged_rows_of_customer L R c :
  NoDup (keys L) -> NoDup (keys R) -> In c (keys L ++ keys R) ->
  filter (merged_is c) (pd_merge_outer L R) =
  [join_row L R c (lookup c L) (lookup c R)].
Proof.
  intros HL HR Hin. unfold pd_merge_outer.
  rewrite rows_of_key.
  - apply join_key_distinct; assumption.
  - apply merge_keys_NoDup.
  - apply merge_keys_In. exact Hin.
Qed.

Lemma filter_map_swap {A B} (f : A -> B) (p : B -> bool) l :
  filter p (map f l) = map f (filter (fun x => p (f x)) l).
Proof.
  induction l as [|x l IH]; simpl; [reflexivity|].
  destruct (p (f x)); simpl; rewrite IH; reflexivity.
Qed.

Lemma replace_inf_customer r : c_customer (replace_inf r) = c_customer r.
Proof. unfold replace_inf. destruct (c_rate r); reflexivity. Qed.

Lemma unrounded_rows_of_customer L R c :
  NoDup (keys L) -> NoDup (keys R) -> In c (keys L ++ keys R) ->
  filter (calc_is c) (unrounded L R) =
  [replace_inf (add_delta_rate (fillna (join_row L R c (lookup c L) (lookup c R))))].
Proof.
  intros HL HR Hin. unfold unrounded.
  rewrite !filter_map_swap.
  rewrite filter_ext with (g := merged_is c).
  - rewrite merged_rows_of_customer by assumption. reflexivity.
  - intros r. unfold calc_is, merged_is. rewrite replace_inf_customer. reflexivity.
Qed.

Lemma round_columns_rows rows :
  rows <> [] ->
  round_columns rows = Return (map (round_row (rate_is_numeric rows)) rows).
Proof.
  intros Hne. unfold round_columns.
  destruct (rate_is_numeric rows) eqn:E; [|reflexivity].
  destruct rows as [|r0 rows]; [congruence|].
  unfold rate_is_numeric in E. simpl in E. apply andb_prop in E.
  destruct E as [E _]. rewrite E. reflexivity.
Qed.

Lemma round_columns_empty : round_columns [] = Raise IndexError.
Proof. reflexivity. Qed.

(** Two tables without rows: the rate column is numeric and has no first
    cell. *)
Example both_empty_raises (S : SortValues) :
  analyze_sales_data (tbl []) (tbl []) = Raise IndexError.
Proof. reflexivity. Qed.

Lemma analyze_rows (S : SortValues) L R :
  unrounded L R <> [] ->
  analyze_sales_data L R =
  Return (sort_values sales_current
            (map (round_row (rate_is_numeric (unrounded L R))) (unrounded L R))).
Proof.
  intros Hne. unfold analyze_sales_data.
  rewrite round_columns_rows by exact Hne. reflexivity.
Qed.

Lemma unrounded_nonempty L R c :
  NoDup (keys L) -> NoDup (keys R) -> In c (keys L ++ keys R) ->
  unrounded L R <> [].
Proof.
  intros HL HR Hin E.
  pose proof (@unrounded_rows_of_customer L R c HL HR Hin) as H.
  rewrite E in H. discriminate.
Qed.

(** C1.  Take two aggregate tables whose customer names are distinct within
    each table, and a customer [c] named in either.  The outer merge
    followed by [fillna(0)] has exactly one row for [c]; in it the amount
    (and the profit, where the table has that column) of a side that does
    not name [c] is 0.  The table [analyze_sales_data] returns has exactly
    one row for [c] too, holding these amounts rounded. *)
Theorem outer_join_one_row_per_customer (S : SortValues) (L R : AggTable) (c : str) :
  NoDup (keys L) -> NoDup (keys R) -> In c (keys L ++ keys R) ->
  let prior := match lookup c L with Some a => sales a | None => zero end in
  let current := match lookup c R with Some a => sales a | None => zero end in
  let profit (t : AggTable) :=
    if has_profit t
    then Some (match lookup c t with
               | Some a => match gross_profit a with Some q => q | None => zero end
               | None => zero
               end)
    else None in
  (lookup c L = None <-> ~ In c (keys L)) /\
  (lookup c R = None <-> ~ In c (keys R)) /\
  filter (filled_is c) (map fillna (pd_merge_outer L R)) =
    [mkFilledRow c prior current (profit L) (profit R)] /\
  exists out r,
    analyze_sales_data L R = Return out /\
    filter (customer_is c) out = [r] /\
    sales_prior r = round_half_even prior /\
    sales_current r = round_half_even current /\
    profit_prior r = option_map round_half_even (profit L) /\
    profit_current r = option_map round_half_even (profit R).
Proof.
  intros HL HR Hin prior current profit.
  assert (Hrow : fillna (join_row L R c (lookup c L) (lookup c R)) =
                 mkFilledRow c prior current (profit L) (profit R)).
  { unfold fillna, join_row, profit_cell, prior, current, profit. simpl.
    f_equal.
    - destruct (lookup c L); reflexivity.
    - destruct (lookup c R); reflexivity.
    - destruct (has_profit L); [|reflexivity]. simpl.
      destruct (lookup c L) as [a|]; [destruct (gross_profit a)|]; reflexivity.
    - destruct (has_profit R); [|reflexivity]. simpl.
      destruct (lookup c R) as [a|]; [destruct (gross_profit a)|]; reflexivity. }
  split; [apply lookup_None|]. split; [apply lookup_None|]. split.
  - rewrite filter_map_swap.
    rewrite filter_ext with (g := merged_is c).
    + rewrite merged_rows_of_customer by assumption. simpl. rewrite Hrow. reflexivity.
    + intros r. reflexivity.
  - pose proof (@unrounded_rows_of_customer L R c HL HR Hin) as Hu.
    rewrite Hrow in Hu.
    rewrite (@analyze_rows S L R (@unrounded_nonempty L R c HL HR Hin)).
    set (b := rate_is_numeric (unrounded L R)) in *.
    set (w := replace_inf (add_delta_rate (mkFilledRow c prior current (profit L) (profit R)))) in *.
    exists (sort_values sales_current (map (round_row b) (unrounded L R))), (round_row b w).
    split; [reflexivity|]. split.
    + apply Permutation_length_1_inv.
      eapply Permutation_trans;
        [|apply filter_perm, sort_values_perm].
      rewrite filter_map_swap.
      rewrite filter_ext with (g := calc_is c);
        [rewrite Hu; apply Permutation_refl|].
      intros r. unfold customer_is, calc_is. simpl. reflexivity.
    + unfold w, replace_inf, add_delta_rate. simpl.
      destruct (negb (Qc_eqb prior zero)); simpl; repeat split; reflexivity.
Qed.

(** ** Delta and rate *)

Lemma Qc_eqb_eq a b : Qc_eqb a b = true <-> a = b.
Proof. unfold Qc_eqb. destruct (Qc_eq_dec a b); split; congruence. Qed.

Lemma Qc_eqb_neq a b : Qc_eqb a b = false <-> a <> b.
Proof. unfold Qc_eqb. destruct (Qc_eq_dec a b); split; congruence. Qed.

Lemma unrounded_row L R w :
  In w (unrounded L R) ->
  c_delta w = (c_current w - c_prior w)%Qc /\
  c_rate w = rate_before_rounding w.
Proof.
  unfold unrounded. intros H.
  apply in_map_iff in H. destruct H as [v [<- H]].
  apply in_map_iff in H. destruct H as [f [<- _]].
  unfold replace_inf, add_delta_rate, rate_before_rounding. simpl.
  destruct (Qc_eqb (f_prior f) zero) eqn:E; simpl; rewrite ?E; split; reflexivity.
Qed.

Lemma rate_is_numeric_unrounded L R :
  rate_is_numeric (unrounded L R) = negb (has_zero_prior (unrounded L R)).
Proof.
  unfold rate_is_numeric, has_zero_prior.
  assert (H : forall w, In w (unrounded L R) -> c_rate w = rate_before_rounding w)
    by (intros w Hw; apply (@unrounded_row L R w Hw)).
  induction (unrounded L R) as [|w rows IH]; simpl; [reflexivity|].
  rewrite IH by (intros v Hv; apply H; right; exact Hv).
  rewrite (H w (or_introl eq_refl)). unfold rate_before_rounding.
  destruct (Qc_eqb (c_prior w) zero); simpl; [reflexivity|].
  destruct (existsb _ rows); reflexivity.
Qed.

Lemma analyze_inv (S : SortValues) L R out :
  analyze_sales_data L R = Return out ->
  unrounded L R <> [] /\
  out = sort_values sales_current
          (map (round_row (rate_is_numeric (unrounded L R))) (unrounded L R)).
Proof.
  intros H.
  assert (Hne : unrounded L R <> []).
  { intros E. unfold analyze_sales_data in H. rewrite E in H. discriminate. }
  split; [exact Hne|].
  rewrite (@analyze_rows S L R Hne) in H. congruence.
Qed.

Lemma analyze_row_origin (S : SortValues) L R out r :
  analyze_sales_data L R = Return out -> In r out ->
  exists w, In w (unrounded L R) /\
            r = round_row (rate_is_numeric (unrounded L R)) w.
Proof.
  intros H Hr. apply analyze_inv in H. destruct H as [_ ->].
  apply (Permutation_in _ (Permutation_sym (sort_values_perm _ _))) in Hr.
  apply in_map_iff in Hr. destruct Hr as [w [<- Hw]].
  exists w. split; [exact Hw | reflexivity].
Qed.

(** *** The table in float64 arithmetic *)

Lemma unrounded_f64_row L R w :
  In w (unrounded_f64 L R) ->
  c_delta w = f64_sub (c_current w) (c_prior w) /\
  c_rate w = rate_before_rounding_f64 w.
Proof.
  unfold unrounded_f64. intros H.
  apply in_map_iff in H. destruct H as [v [<- H]].
  apply in_map_iff in H. destruct H as [f [<- _]].
  unfold replace_inf, add_delta_rate_f64, rate_before_rounding_f64. simpl.
  destruct (Qc_eqb (f_prior f) zero) eqn:E; simpl; rewrite ?E; split; reflexivity.
Qed.

Lemma rate_is_numeric_unrounded_f64 L R :
  rate_is_numeric (unrounded_f64 L R) = negb (has_zero_prior (unrounded_f64 L R)).
Proof.
  unfold rate_is_numeric, has_zero_prior.
  assert (H : forall w, In w (unrounded_f64 L R) -> c_rate w = rate_before_rounding_f64 w)
    by (intros w Hw; apply (@unrounded_f64_row L R w Hw)).
  induction (unrounded_f64 L R) as [|w rows IH]; simpl; [reflexivity|].
  rewrite IH by (intros v Hv; apply H; right; exact Hv).
  rewrite (H w (or_introl eq_refl)). unfold rate_before_rounding_f64.
  destruct (Qc_eqb (c_prior w) zero); simpl; [reflexivity|].
  destruct (existsb _ rows); reflexivity.
Qed.

Lemma analyze_f64_row_origin (S : SortValues) L R out r :
  analyze_sales_data_f64 L R = Return out -> In r out ->
  exists w, In w (unrounded_f64 L R) /\
            r = round_row (rate_is_numeric (unrounded_f64 L R)) w.
Proof.
  intros H Hr. unfold analyze_sales_data_f64 in H.
  assert (Hne : unrounded_f64 L R <> []).
  { intros E. rewrite E in H. discriminate. }
  rewrite (round_columns_rows Hne) in H. simpl in H. injection H as <-.
  apply (Permutation_in _ (Permutation_sym (sort_values_perm _ _))) in Hr.
  apply in_map_iff in Hr. destruct Hr as [w [<- Hw]].
  exists w. split; [exact Hw | reflexivity].
Qed.

(** The two ways of computing agree on everything but the values of the
    delta and of the rate. *)
Lemma unrounded_f64_amounts L R :
  map amounts_of (unrounded_f64 L R) = map amounts_of (unrounded L R).
Proof.
  unfold unrounded_f64, unrounded. rewrite !map_map. apply map_ext. intros m.
  generalize (fillna m). intros f.
  unfold amounts_of, replace_inf, add_delta_rate_f64, add_delta_rate.
  cbn [c_rate]. destruct (Qc_eqb (f_prior f) zero); reflexivity.
Qed.

(** *** Doubles *)











(** C2, as the code has it.  Every row of the returned table comes from a
    row [w] of the table before rounding, whose delta is the float64
    difference of its amounts.  If the prior amount of [w] is 0 the rate is
    the text 新規/完全減少, whatever the current amount.  Otherwise the rate
    is a number, the float64 value of (delta / prior) * 100: as it is when
    some row of the table has prior amount 0, and rounded to an integer when
    no row has.  The test is on the prior amount before rounding. *)
Theorem delta_ratio_policy (S : SortValues) (L R : AggTable) (out : list Row) (r : Row) :
  analyze_sales_data_f64 L R = Return out -> In r out ->
  exists w,
    In w (unrounded_f64 L R) /\
    customer r = Some (c_customer w) /\
    sales_prior r = round_half_even (c_prior w) /\
    delta r = round_half_even (c_delta w) /\
    c_delta w = f64_sub (c_current w) (c_prior w) /\
    (c_prior w = zero -> rate r = RateText NEW_OR_LOST) /\
    (c_prior w <> zero ->
     rate r =
     if has_zero_prior (unrounded_f64 L R)
     then RateFloat (f64_mul (f64_div (c_delta w) (c_prior w)) hundred)
     else RateInt (round_half_even
                     (f64_mul (f64_div (c_delta w) (c_prior w)) hundred))).
Proof.
  intros H Hr.
  destruct (@analyze_f64_row_origin S L R out r H Hr) as [w [Hw ->]].
  exists w. split; [exact Hw|].
  destruct (@unrounded_f64_row L R w Hw) as [Hdelta Hrate].
  rewrite rate_is_numeric_unrounded_f64.
  repeat split; simpl; try exact Hdelta; rewrite Hrate; unfold rate_before_rounding_f64.
  - intros Hz. apply Qc_eqb_eq in Hz. rewrite Hz.
    destruct (negb (has_zero_prior (unrounded_f64 L R))); reflexivity.
  - intros Hz. apply Qc_eqb_neq in Hz. rewrite Hz.
    destruct (has_zero_prior (unrounded_f64 L R)); reflexivity.
Qed.


Ltac distinct_keys :=
  vm_compute; repeat constructor; simpl; intuition discriminate.

Lemma outer_join_one_row_witness :
  exists out r,
    analyze_sales_data (S := stable_sort) scenario_prior scenario_current = Return out /\
    filter (customer_is (str_of "C")) out = [r] /\
    sales_prior r = 0%Z /\ sales_current r = 50%Z.
Proof.
  destruct (@outer_join_one_row_per_customer stable_sort scenario_prior
              scenario_current (str_of "C"))
    as (_ & _ & _ & out & r & H1 & H2 & H3 & H4 & _).
  - distinct_keys.
  - distinct_keys.
  - vm_compute. tauto.
  - exists out, r. repeat split; [exact H1 | exact H2 | rewrite H3 | rewrite H4];
      vm_compute; reflexivity.
Defined.

Lemma delta_ratio_rounded_counterexample :
  analyze_sales_data (S := stable_sort) (tbl [("A", 3%Z)]%string)
                     (tbl [("A", 4%Z)]%string) =
    Return [mkRow (Some (str_of "A")) 3 4 None None 1 (RateInt 33)] /\
  rate_value (RateInt 33) <> Some (Qc_of_Z 1 / Qc_of_Z 3 * hundred)%Qc.
Proof.
  split; [vm_compute; reflexivity|].
  vm_compute. intros H. discriminate H.
Qed.

(** ** Search, filter and summary *)

Section SearchProperties.
Variable ci_eqb : N -> N -> bool.
Variable re_other : str -> option (str -> bool).

Lemma DOT_special : is_special DOT = true.
Proof. reflexivity. Qed.

Lemma parse_plain term : plain term = true -> parse term = Some (map Lit term).
Proof.
  induction term as [|c term IH]; simpl; intros H; [reflexivity|].
  apply andb_prop in H. destruct H as [Hc Ht].
  rewrite (IH Ht).
  destruct (N.eqb c DOT) eqn:E.
  - apply N.eqb_eq in E. subst c. rewrite DOT_special in Hc. discriminate.
  - apply negb_true_iff in Hc. rewrite Hc. reflexivity.
Qed.

Lemma match_here_window term s :
  match_here ci_eqb (map Lit term) s = ci_equal ci_eqb term (firstn (List.length term) s).
Proof.
  revert s. induction term as [|c term IH]; intros s; simpl.
  - reflexivity.
  - destruct s as [|d s]; simpl; [reflexivity|].
    rewrite IH. unfold ci_equal. simpl.
    destruct (ci_eqb c d); simpl; [reflexivity|].
    symmetry. apply andb_false_r.
Qed.

Lemma existsb_seq_shift (f : nat -> bool) n len :
  existsb f (seq (S n) len) = existsb (fun i => f (S i)) (seq n len).
Proof.
  rewrite <- seq_shift. induction (seq n len) as [|i l IH]; simpl; [reflexivity|].
  rewrite IH. reflexivity.
Qed.

Lemma search_windows atoms s :
  search ci_eqb atoms s =
  existsb (fun i => match_here ci_eqb atoms (skipn i s)) (seq 0 (S (List.length s))).
Proof.
  induction s as [|d s IH].
  - simpl. reflexivity.
  - change (search ci_eqb atoms (d :: s))
      with (match_here ci_eqb atoms (d :: s) || search ci_eqb atoms s).
    rewrite IH.
    change (seq 0 (S (List.length (d :: s)))) with (0%nat :: seq 1 (S (List.length s))).
    cbn [existsb]. rewrite existsb_seq_shift. reflexivity.
Qed.

Lemma search_plain term s :
  search ci_eqb (map Lit term) s = contains_ci ci_eqb term s.
Proof.
  rewrite search_windows. unfold contains_ci.
  induction (seq 0 (S (List.length s))) as [|i l IH]; simpl; [reflexivity|].
  rewrite match_here_window, IH. reflexivity.
Qed.

Lemma filter_true {A} (l : list A) : filter (fun _ => true) l = l.
Proof. apply filter_all. reflexivity. Qed.

Lemma filtering_steps df rng chg term :
  filtering ci_eqb re_other df rng chg term =
  let base := filter (change_matches chg) (filter (in_range rng) df) in
  match term with
  | [] => Return base
  | _ :: _ =>
      match re_compile ci_eqb re_other term with
      | Some found => Return (filter (fun r => str_contains found (customer r)) base)
      | None => Raise ReError
      end
  end.
Proof.
  unfold filtering. destruct chg; simpl; rewrite ?filter_true; reflexivity.
Qed.

(** C8, as the code has it.  With an empty search term every row that
    passed the range and change filters is kept.  With a non-empty term
    that has no character special to regular expressions, exactly the rows
    whose customer name contains the term, letter case aside, are kept.
    With any non-empty term, a row without a customer name is never kept. *)
Theorem search_filter_policy (df : list Row) (rng : Z * Z) (chg : ChangeOption) (term : str) :
  let base := filter (change_matches chg) (filter (in_range rng) df) in
  (term = [] -> filtering ci_eqb re_other df rng chg term = Return base) /\
  (term <> [] -> plain term = true ->
   filtering ci_eqb re_other df rng chg term =
   Return (filter (name_matches ci_eqb term) base)) /\
  (term <> [] ->
   forall view r,
     filtering ci_eqb re_other df rng chg term = Return view ->
     In r view -> customer r <> None).
Proof.
  intros base. rewrite filtering_steps. fold base. repeat split.
  - intros ->. reflexivity.
  - intros Hne Hplain. destruct term as [|c term]; [congruence|].
    unfold re_compile. rewrite (@parse_plain (c :: term) Hplain). f_equal.
    apply filter_ext. intros r. unfold str_contains, name_matches.
    destruct (customer r); [apply search_plain | reflexivity].
  - intros Hne view r Hv Hr. destruct term as [|c term]; [congruence|].
    destruct (re_compile ci_eqb re_other (c :: term)) as [found|]; [|discriminate].
    injection Hv as <-. apply filter_In in Hr. destruct Hr as [_ Hr].
    intros E. rewrite E in Hr. discriminate.
Qed.

Lemma min_amount_le df lo r :
  min_amount df = Return lo -> In r df -> (lo <= sales_current r)%Z.
Proof.
  destruct df as [|r0 rows]; simpl; [discriminate|].
  intros H. injection H as <-. revert r.
  induction rows as [|x rows IH]; simpl; intros r [<-|Hr]; try lia; try contradiction.
  - specialize (IH r0 (or_introl eq_refl)). lia.
  - destruct Hr as [<-|Hr]; [lia|]. specialize (IH r (or_intror Hr)). lia.
Qed.

Lemma max_amount_ge df hi r :
  max_amount df = Return hi -> In r df -> (sales_current r <= hi)%Z.
Proof.
  destruct df as [|r0 rows]; simpl; [discriminate|].
  intros H. injection H as <-. revert r.
  induction rows as [|x rows IH]; simpl; intros r [<-|Hr]; try lia; try contradiction.
  - specialize (IH r0 (or_introl eq_refl)). lia.
  - destruct Hr as [<-|Hr]; [lia|]. specialize (IH r (or_intror Hr)). lia.
Qed.

Lemma filter_filter {A} (p q : A -> bool) l :
  filter q (filter p l) = filter (fun x => p x && q x) l.
Proof.
  induction l as [|x l IH]; simpl; [reflexivity|].
  destruct (p x); simpl; [destruct (q x)|]; rewrite IH; reflexivity.
Qed.

Lemma show_results_inv state rng chg term state' shown :
  show_results ci_eqb re_other state rng chg term = Return (state', Some shown) ->
  exists df,
    comparison_df state = Some df /\ state' = state /\
    filtering ci_eqb re_other df rng chg term = Return (filtered_df shown) /\
    metrics shown = summary df.
Proof.
  unfold show_results. intros H.
  destruct (analysis_done state); [|discriminate].
  destruct (comparison_df state) as [df|] eqn:Edf; [|discriminate].
  destruct (min_amount df) as [lo|]; [|discriminate].
  destruct (max_amount df) as [hi|]; [|discriminate]. simpl in H.
  destruct (slider lo hi); [|discriminate]. simpl in H.
  destruct (filtering ci_eqb re_other df rng chg term) as [view|] eqn:Ef; [|discriminate].
  simpl in H. injection H as <- <-. exists df. simpl.
  repeat split; [exact Ef].
Qed.

(** C9, as the code has it.  When the page shows a table, it shows exactly
    the rows of the stored table for which the three tests hold together:
    current amount within the selected range, bounds included; delta
    positive (増加のみ) or negative (減少のみ) or any (すべて表示); and the name
    test, which is void for an empty term, the compiled pattern's search
    otherwise, and containment of the term for a term that is [plain].  The
    rows keep their order, the session state is as before, and the default
    range with すべて表示 and no term shows the whole table. *)
Theorem filter_conjunction (state : SessionState) (rng : Z * Z) (chg : ChangeOption)
        (term : str) (state' : SessionState) (shown : Shown) :
  show_results ci_eqb re_other state rng chg term = Return (state', Some shown) ->
  exists df name_ok,
    comparison_df state = Some df /\
    state' = state /\
    (term = [] -> forall r, name_ok r = true) /\
    (term <> [] ->
     exists found, re_compile ci_eqb re_other term = Some found /\
                   forall r, name_ok r = str_contains found (customer r)) /\
    (term <> [] -> plain term = true -> forall r, name_ok r = name_matches ci_eqb term r) /\
    filtered_df shown =
      filter (fun r => in_range rng r && change_matches chg r && name_ok r) df /\
    (forall r, In r (filtered_df shown) <->
               In r df /\
               (fst rng <= sales_current r <= snd rng)%Z /\
               match chg with
               | ShowAll => True
               | IncreaseOnly => (0 < delta r)%Z
               | DecreaseOnly => (delta r < 0)%Z
               end /\
               name_ok r = true) /\
    (forall lo hi, min_amount df = Return lo -> max_amount df = Return hi ->
                   filtering ci_eqb re_other df (lo, hi) ShowAll [] = Return df).
Proof.
  intros H. apply show_results_inv in H.
  destruct H as (df & Hdf & Hst & Hf & _).
  rewrite filtering_steps in Hf. cbv zeta in Hf.
  assert (Hdefault : forall lo hi, min_amount df = Return lo -> max_amount df = Return hi ->
                   filtering ci_eqb re_other df (lo, hi) ShowAll [] = Return df).
  { intros lo hi Hlo Hhi. rewrite filtering_steps. cbv zeta. f_equal.
    simpl. rewrite filter_true. apply filter_all. intros r Hr.
    unfold in_range. simpl.
    pose proof (@min_amount_le df lo r Hlo Hr). pose proof (@max_amount_ge df hi r Hhi Hr).
    apply andb_true_intro. split; apply Z.leb_le; assumption. }
  assert (Hspec : forall name_ok r,
             In r (filter (fun r => in_range rng r && change_matches chg r && name_ok r) df) <->
               In r df /\
               (fst rng <= sales_current r <= snd rng)%Z /\
               match chg with
               | ShowAll => True
               | IncreaseOnly => (0 < delta r)%Z
               | DecreaseOnly => (delta r < 0)%Z
               end /\
               name_ok r = true).
  { intros name_ok r. rewrite filter_In, !andb_true_iff. unfold in_range.
    rewrite andb_true_iff, !Z.leb_le.
    assert (Hc : change_matches chg r = true <->
                 match chg with
                 | ShowAll => True
                 | IncreaseOnly => (0 < delta r)%Z
                 | DecreaseOnly => (delta r < 0)%Z
                 end).
    { destruct chg; simpl; [tauto | apply Z.ltb_lt | apply Z.ltb_lt]. }
    rewrite Hc. tauto. }
  destruct term as [|c term].
  - injection Hf as Hf.
    assert (H6 : filtered_df shown =
                 filter (fun r => in_range rng r && change_matches chg r && true) df).
    { rewrite <- Hf, filter_filter. apply filter_ext. intros r.
      rewrite andb_true_r. reflexivity. }
    exists df, (fun _ => true).
    split; [exact Hdf|]. split; [exact Hst|].
    split; [intros _ r; reflexivity|].
    split; [intros Hne; congruence|].
    split; [intros Hne; congruence|].
    split; [exact H6|].
    split; [intros r; rewrite H6; apply Hspec | exact Hdefault].
  - destruct (re_compile ci_eqb re_other (c :: term)) as [found|] eqn:E; [|discriminate].
    injection Hf as Hf.
    assert (H6 : filtered_df shown =
                 filter (fun r => in_range rng r && change_matches chg r &&
                                  str_contains found (customer r)) df).
    { rewrite <- Hf, !filter_filter. apply filter_ext. intros r.
      rewrite andb_assoc. reflexivity. }
    exists df, (fun r => str_contains found (customer r)).
    split; [exact Hdf|]. split; [exact Hst|].
    split; [intros Hnil; discriminate|].
    split; [intros _; exists found; split; reflexivity|].
    split.
    { intros _ Hplain r. unfold re_compile in E.
      rewrite (@parse_plain (c :: term) Hplain) in E.
      injection E as <-. unfold str_contains, name_matches.
      destruct (customer r) as [s|]; [|reflexivity].
      change (Lit c :: map Lit term) with (map Lit (c :: term)).
      apply search_plain. }
    split; [exact H6|].
    split; [intros r; rewrite H6; apply Hspec | exact Hdefault].
Qed.

(** C5, as the code has it.  When the page shows its metrics, the three
    sums are over every row of the stored table, whatever the widgets
    select.  The rate is total delta / prior total * 100 when the prior
    total is positive, and 計算不能 when it is zero or negative. *)
Theorem summary_over_full_table (state : SessionState) (rng : Z * Z) (chg : ChangeOption)
        (term : str) (state' : SessionState) (shown : Shown) :
  show_results ci_eqb re_other state rng chg term = Return (state', Some shown) ->
  exists df,
    comparison_df state = Some df /\
    prior_total (metrics shown) = column_sum sales_prior df /\
    current_total (metrics shown) = column_sum sales_current df /\
    total_change (metrics shown) = column_sum delta df /\
    ((0 < column_sum sales_prior df)%Z ->
     change_rate (metrics shown) =
     Percent (Qc_of_Z (column_sum delta df) / Qc_of_Z (column_sum sales_prior df)
              * hundred)%Qc) /\
    ((column_sum sales_prior df <= 0)%Z ->
     change_rate (metrics shown) = NotComputable) /\
    (forall rng' chg' term' state'' shown',
        show_results ci_eqb re_other state rng' chg' term' = Return (state'', Some shown') ->
        metrics shown' = metrics shown).
Proof.
  intros H. apply show_results_inv in H.
  destruct H as (df & Hdf & _ & _ & Hm).
  exists df. rewrite Hm. unfold summary. simpl. repeat split; try assumption.
  - intros Hpos. apply Z.ltb_lt in Hpos. rewrite Hpos. reflexivity.
  - intros Hneg. apply Z.ltb_ge in Hneg. rewrite Hneg. reflexivity.
  - intros rng' chg' term' state'' shown' H'. apply show_results_inv in H'.
    destruct H' as (df' & Hdf' & _ & _ & Hm').
    rewrite Hdf in Hdf'. injection Hdf' as <-. exact Hm'.
Qed.

End SearchProperties.

(** ** Ingestion *)

Lemma mask_filter {A} (p : A -> bool) (l : list A) : mask (map p l) l = filter p l.
Proof.
  induction l as [|x l IH]; simpl; [reflexivity|].
  rewrite IH. reflexivity.
Qed.

Lemma mask_records {A B} (p : B -> bool) (cs : list A) (ys : list B) :
  combine (mask (map p ys) cs) (mask (map p ys) ys) =
  filter (fun r => p (snd r)) (combine cs ys).
Proof.
  revert cs. induction ys as [|y ys IH]; intros cs; simpl.
  - destruct cs; reflexivity.
  - destruct cs as [|c cs]; simpl; [reflexivity|].
    destruct (p y); simpl; rewrite IH; reflexivity.
Qed.

Lemma group_keys_In recs k v : In (Some k, v) recs -> In k (group_keys recs).
Proof.
  intros H. unfold group_keys, sort_keys.
  eapply Permutation_in; [apply isort_perm|].
  apply nodup_In. apply in_flat_map. exists (Some k, v). split; [exact H|].
  simpl. left. reflexivity.
Qed.

Lemma groupby_sum_keys customers vals :
  map fst (groupby_sum customers vals) = group_keys (combine customers vals).
Proof.
  unfold groupby_sum. rewrite map_map. simpl. apply map_id.
Qed.

Lemma nansum_skips_nan vs : nansum (None :: vs) = nansum vs.
Proof. reflexivity. Qed.

Lemma find_key {B} (f : str -> B) (ks : list str) (k : str) :
  find (fun r => str_eqb (fst r) k) (map (fun k' => (k', f k')) ks) =
  if in_dec str_eq_dec k ks then Some (k, f k) else None.
Proof.
  induction ks as [|k' ks IH]; simpl; [reflexivity|].
  destruct (str_eqb k' k) eqn:E.
  - apply str_eqb_eq in E. subst k'.
    destruct (str_eq_dec k k) as [e0|n]; [reflexivity | congruence].
  - apply str_eqb_neq in E. rewrite IH.
    destruct (str_eq_dec k' k) as [e|n0]; [congruence|].
    destruct (in_dec str_eq_dec k ks); reflexivity.
Qed.

Lemma group_keys_of_customers (customers : list (option str)) (vals : list num) :
  (List.length customers <= List.length vals)%nat ->
  group_keys (combine customers vals) =
  sort_keys (nodup str_eq_dec
               (flat_map (fun k => match k with Some s => [s] | None => [] end)
                         customers)).
Proof.
  intros H. unfold group_keys. do 2 f_equal.
  revert vals H. induction customers as [|k ks IH]; intros vals H; [reflexivity|].
  destruct vals as [|v vs]; simpl in H; [lia|].
  simpl. f_equal. apply IH. lia.
Qed.

Lemma nansum_all_nan vs : Forall (fun v => v = None) vs -> nansum vs = zero.
Proof.
  induction 1 as [|v vs Hv _ IH]; [reflexivity|].
  subst v. rewrite nansum_skips_nan. exact IH.
Qed.

Lemma converted_profit_rows (customers : list (option str)) (amounts ys : list num)
      (a : AggRow) :
  List.length customers = List.length amounts ->
  List.length customers = List.length ys ->
  In a (agg_rows (with_profit customers (groupby_sum customers amounts) (Numeric ys))) ->
  gross_profit a = Some (group_sum (combine customers ys) (customer_name a)).
Proof.
  intros Hlen1 Hlen2 Ha. unfold with_profit in Ha. simpl in Ha.
  apply in_map_iff in Ha. destruct Ha as [[k v] [<- Hin]]. simpl.
  assert (Hk : In k (group_keys (combine customers ys))).
  { rewrite group_keys_of_customers by lia.
    rewrite <- group_keys_of_customers with (vals := amounts) by lia.
    rewrite <- groupby_sum_keys.
    apply in_map_iff. exists (k, v). split; [reflexivity | exact Hin]. }
  unfold lookup_sum, groupby_sum, group_sum.
  rewrite (find_key (fun k => nansum (map snd (filter (in_group k)
                                 (combine customers ys))))).
  destruct (in_dec str_eq_dec k (group_keys (combine customers ys)));
    [reflexivity | contradiction].
Qed.

Section IngestionProperties.
Variable File : Type.
Variable read_excel : File -> result DataFrame.
Variable to_numeric : list cell -> result (list num).

(** C6, as the code has it.  When the amount column has dtype object and
    converts, the records kept are exactly those whose converted amount is
    not NaN, so every kept amount is a number, and the function goes on.
    When the column is numeric already, every record is kept, also those
    without an amount: their customers get a group, and the sum of a group
    skips the missing amounts. *)
Theorem amount_coercion_policy (customers : list (option str)) (profit : option column)
        (log : list notice) :
  (forall xs ys,
      to_numeric xs = Return ys ->
      exists kept,
        coerce_amount to_numeric customers (Object xs) profit log =
        (Return (Some kept), log ++ [Info_rows_excluded]) /\
        combine (kept_customer kept) (kept_amount kept) =
        filter (fun r => notna (snd r)) (combine customers ys) /\
        kept_amount kept = filter notna ys /\
        Forall (fun v => v <> None) (kept_amount kept)) /\
  (forall ys,
      coerce_amount to_numeric customers (Numeric ys) profit log =
      (Return (Some (mkRetained customers ys profit)), log)) /\
  (forall ys k v,
      In (Some k, v) (combine customers ys) ->
      In k (map fst (groupby_sum customers ys))) /\
  (forall vs, nansum (None :: vs) = nansum vs).
Proof.
  repeat split.
  - intros xs ys Hys.
    exists (mkRetained (mask (map notna ys) customers) (mask (map notna ys) ys)
                       (option_map (column_mask (map notna ys)) profit)).
    split; [|split; [|split]].
    + unfold coerce_amount, try_except, bind, lift, show, ret. rewrite Hys. reflexivity.
    + simpl. apply mask_records.
    + simpl. apply mask_filter.
    + simpl. rewrite mask_filter. apply Forall_forall. intros v Hv.
      apply filter_In in Hv. destruct Hv as [_ Hv]. destruct v; [discriminate|discriminate].
  - intros ys k v H. rewrite groupby_sum_keys. apply (@group_keys_In _ k v H).
Qed.

Lemma aggregate_sales (df : Retained) (log : list notice) :
  exists t log',
    aggregate to_numeric df log = (Return t, log') /\
    map (fun a => (customer_name a, sales a)) (agg_rows t) =
    groupby_sum (kept_customer df) (kept_amount df).
Proof.
  unfold aggregate.
  assert (Hid : forall (l : list (str * Qc)) (f : str * Qc -> num),
             map (fun a => (customer_name a, sales a))
                 (map (fun r => mkAggRow (fst r) (snd r) (f r)) l) = l).
  { intros l f. rewrite map_map. simpl. rewrite <- (map_id l) at 2.
    apply map_ext. intros [k v]. reflexivity. }
  destruct (kept_profit df) as [c|].
  - destruct c as [ys|xs].
    + eexists _, _. split; [reflexivity|]. simpl. apply Hid.
    + unfold coerce_profit, try_except, bind, lift, show, ret.
      destruct (to_numeric xs) as [ys|e].
      * eexists _, _. split; [reflexivity|]. simpl. apply Hid.
      * eexists _, _. split; [reflexivity|]. simpl. apply (Hid _ (fun _ => None)).
  - eexists _, _. split; [reflexivity|]. simpl. apply (Hid _ (fun _ => None)).
Qed.

(** C7, as the code has it.  When the profit column has dtype object and
    its conversion returns, as it does with [errors='coerce'] for cells of
    text, the column is kept: no warning is shown, the table has the profit
    column, and the profit of each customer is the sum of the converted
    cells of its records, NaN skipped, which is 0 when no cell of the column
    converted.  No record is dropped on account of the profit column: the
    customers and amount sums are those of the same records without
    it. *)
Theorem profit_coercion_keeps_column (df : Retained) (xs : list cell) (ys : list num)
        (log : list notice) :
  kept_profit df = Some (Object xs) ->
  to_numeric xs = Return ys ->
  List.length (kept_customer df) = List.length (kept_amount df) ->
  List.length (kept_customer df) = List.length ys ->
  exists t,
    aggregate to_numeric df log = (Return t, log) /\
    has_profit t = true /\
    sales_of t = groupby_sum (kept_customer df) (kept_amount df) /\
    (forall a, In a (agg_rows t) ->
       gross_profit a =
       Some (group_sum (combine (kept_customer df) ys) (customer_name a))) /\
    (Forall (fun y => y = None) ys ->
     forall a, In a (agg_rows t) -> gross_profit a = Some zero) /\
    (exists t0,
       aggregate to_numeric
                 (mkRetained (kept_customer df) (kept_amount df) None) log =
       (Return t0, log) /\
       has_profit t0 = false /\ sales_of t0 = sales_of t).
Proof.
  intros Hp Hys Hlen1 Hlen2.
  set (result_df := groupby_sum (kept_customer df) (kept_amount df)).
  assert (Hid : forall f : str * Qc -> num,
             map (fun a => (customer_name a, sales a))
                 (map (fun r => mkAggRow (fst r) (snd r) (f r)) result_df) = result_df).
  { intros f. rewrite map_map. simpl. rewrite <- (map_id result_df) at 2.
    apply map_ext. intros [k v]. reflexivity. }
  assert (Hrows : forall a,
             In a (agg_rows (with_profit (kept_customer df) result_df (Numeric ys))) ->
             gross_profit a =
             Some (group_sum (combine (kept_customer df) ys) (customer_name a))).
  { intros a Ha. apply (@converted_profit_rows _ (kept_amount df) ys a Hlen1 Hlen2 Ha). }
  exists (with_profit (kept_customer df) result_df (Numeric ys)).
  split; [|split; [reflexivity|split; [|split; [exact Hrows|split]]]].
  - unfold aggregate. rewrite Hp. fold result_df.
    unfold coerce_profit, try_except, bind, lift, ret. rewrite Hys. reflexivity.
  - unfold sales_of, with_profit. simpl. apply Hid.
  - intros Hnan a Ha. rewrite (Hrows a Ha). f_equal. unfold group_sum.
    apply nansum_all_nan. apply Forall_forall. intros v Hv.
    apply in_map_iff in Hv. destruct Hv as [[k y] [<- Hin]].
    apply filter_In in Hin. destruct Hin as [Hin _].
    apply in_combine_r in Hin. simpl.
    rewrite Forall_forall in Hnan. apply Hnan. exact Hin.
  - exists (without_profit result_df).
    split; [reflexivity|]. split; [reflexivity|].
    unfold sales_of, with_profit, without_profit. simpl.
    rewrite (Hid (fun _ => None)). symmetry. apply Hid.
Qed.

(** C10.  [process_excel_data] returns for every file: when the body of its
    [try] raises, and so in particular when [read_excel] does, the error is
    shown and [None] is returned. *)
Theorem process_excel_data_never_raises (file : File) (log : list notice) :
  exists r log',
    process_excel_data read_excel to_numeric file log = (Return r, log') /\
    (forall e log1,
        process_body read_excel to_numeric file log = (Raise e, log1) ->
        r = None /\ log' = log1 ++ [Error_processing e]) /\
    (forall e, read_excel file = Raise e -> r = None).
Proof.
  unfold process_excel_data, try_except.
  destruct (process_body read_excel to_numeric file log) as [[a|e] log1] eqn:E.
  - exists a, log1. split; [reflexivity|]. split.
    + intros e' log2 H. discriminate.
    + intros e' Hr. unfold process_body, bind, lift in E. rewrite Hr in E. discriminate.
  - exists None, (log1 ++ [Error_processing e]). split; [reflexivity|]. split.
    + intros e' log2 H. injection H as <- <-. split; reflexivity.
    + intros; reflexivity.
Qed.

End IngestionProperties.

Lemma group_keys_NoDup recs : NoDup (group_keys recs).
Proof.
  unfold group_keys, sort_keys.
  eapply Permutation_NoDup; [apply isort_perm | apply NoDup_nodup].
Qed.

Section IngestionKeys.
Variable File : Type.
Variable read_excel : File -> result DataFrame.
Variable to_numeric : list cell -> result (list num).

Lemma aggregate_keys_distinct df log t log' :
  aggregate to_numeric df log = (Return t, log') -> NoDup (keys t).
Proof.
  intros H.
  destruct (aggregate_sales to_numeric df log) as (t0 & log0 & H0 & Hs).
  rewrite H in H0. injection H0 as <- <-.
  assert (E : keys t = map fst (groupby_sum (kept_customer df) (kept_amount df))).
  { rewrite <- Hs. unfold keys. rewrite map_map. reflexivity. }
  rewrite E, groupby_sum_keys. apply group_keys_NoDup.
Qed.

Lemma process_keys_distinct file log t log' :
  process_excel_data read_excel to_numeric file log = (Return (Some t), log') ->
  NoDup (keys t).
Proof.
  unfold process_excel_data, try_except, process_body, bind, lift, show, ret.
  destruct (read_excel file) as [df|e]; [|intros H; discriminate].
  destruct (filter (not_in (columns df)) required_columns); [|intros H; discriminate].
  destruct (filter (not_in (columns df)) optional_columns);
    (destruct (col_customer df) as [customers|]; [|intros H; discriminate];
     destruct (col_amount df) as [amounts|]; [|intros H; discriminate];
     match goal with
     | |- context [coerce_amount ?f ?c ?a ?p ?l] =>
         destruct (coerce_amount f c a p l) as [[[kept|]|e] log1]; try (intros H; discriminate)
     end;
     match goal with
     | |- context [aggregate ?f ?d ?l] =>
         destruct (aggregate f d l) as [[t0|e] log2] eqn:E; try (intros H; discriminate)
     end;
     intros H; injection H as <- <-;
     apply (@aggregate_keys_distinct _ _ _ _ E)).
Qed.

End IngestionKeys.

(** ** The spec's scenario and other runs *)

Example scenario_rows :
  analyze_sales_data (S := stable_sort) scenario_prior scenario_current =
  Return scenario_out.
Proof. table_eq. Qed.

Lemma delta_ratio_policy_witness :
  exists w,
    In w (unrounded_f64 scenario_prior scenario_current) /\
    customer row_C = Some (c_customer w) /\
    sales_prior row_C = round_half_even (c_prior w) /\
    delta row_C = round_half_even (c_delta w) /\
    c_delta w = f64_sub (c_current w) (c_prior w) /\
    (c_prior w = zero -> rate row_C = RateText NEW_OR_LOST) /\
    (c_prior w <> zero ->
     rate row_C =
     if has_zero_prior (unrounded_f64 scenario_prior scenario_current)
     then RateFloat (f64_mul (f64_div (c_delta w) (c_prior w)) hundred)
     else RateInt (round_half_even
                     (f64_mul (f64_div (c_delta w) (c_prior w)) hundred))).
Proof.
  apply (@delta_ratio_policy stable_sort scenario_prior scenario_current
           scenario_out row_C).
  - table_eq.
  - simpl. tauto.
Defined.


Example scenario_rows_f64 :
  analyze_sales_data_f64 (S := stable_sort) scenario_prior scenario_current =
  Return scenario_out.
Proof. table_eq. Qed.

(** 40 -> 17: the quotient -23/40 is not a double, the product with 100 is
    the double next above -57.5, and the rate shown is -57. *)
Example rate_of_a_rounded_quotient :
  analyze_sales_data_f64 (S := stable_sort) (tbl [("A", 40%Z)]%string)
                         (tbl [("A", 17%Z)]%string) =
    Return [mkRow (Some (str_of "A")) 40 17 None None (-23) (RateInt (-57))] /\
  this (f64_mul (f64_div (Qc_of_Z (-23)) (Qc_of_Z 40)) hundred) =
    (-8092405580431359 # 140737488355328)%Q /\
  round_half_even (Qc_of_Z (-23) / Qc_of_Z 40 * hundred)%Qc = (-58)%Z.
Proof. repeat split; vm_compute; reflexivity. Qed.

Example rounded_rate_f64 :
  analyze_sales_data_f64 (S := stable_sort) (tbl [("A", 3%Z)]%string)
                         (tbl [("A", 4%Z)]%string) =
    Return [mkRow (Some (str_of "A")) 3 4 None None 1 (RateInt 33)].
Proof. vm_compute. reflexivity. Qed.

(** The doubles nearest to 0.1 and 2.6: their float64 difference is 2.5,
    shown as 2, although the difference of the two doubles is above 2.5. *)
Example delta_of_decimal_amounts :
  exists r,
    analyze_sales_data_f64 (S := stable_sort)
      (mkAggTable false [mkAggRow (str_of "A") (rnd64 (Q2Qc (1 # 10))) None])
      (mkAggTable false [mkAggRow (str_of "A") (rnd64 (Q2Qc (26 # 10))) None])
      = Return [r] /\
    sales_prior r = 0%Z /\ sales_current r = 3%Z /\ delta r = 2%Z /\
    this (f64_sub (rnd64 (Q2Qc (26 # 10))) (rnd64 (Q2Qc (1 # 10)))) = (5 # 2)%Q /\
    Qc_ltb (Q2Qc (5 # 2)) (rnd64 (Q2Qc (26 # 10)) - rnd64 (Q2Qc (1 # 10)))%Qc = true.
Proof.
  eexists. split; [vm_compute; reflexivity|]. repeat split; vm_compute; reflexivity.
Qed.

(** A prior amount under one half is not 0 for the rate, and is shown as 0. *)
Example prior_amount_rounds_to_zero :
  exists r,
    analyze_sales_data_f64 (S := stable_sort)
      (mkAggTable false [mkAggRow (str_of "A") (rnd64 (Q2Qc (3 # 10))) None])
      (tbl [("A", 5%Z)]%string)
      = Return [r] /\
    sales_prior r = 0%Z /\ rate r = RateInt 1567.
Proof.
  eexists. split; [vm_compute; reflexivity|]. repeat split.
Qed.

Example decrease_only_shows_B :
  show_results ascii_ci_eqb no_other scenario_state (0, 150)%Z DecreaseOnly [] =
  Return (scenario_state, Some (mkShown [row_B] (summary scenario_out))).
Proof. vm_compute. reflexivity. Qed.

Lemma summary_over_full_table_witness :
  exists df,
    comparison_df scenario_state = Some df /\
    prior_total (summary scenario_out) = column_sum sales_prior df /\
    current_total (summary scenario_out) = column_sum sales_current df /\
    total_change (summary scenario_out) = column_sum delta df /\
    ((0 < column_sum sales_prior df)%Z ->
     change_rate (summary scenario_out) =
     Percent (Qc_of_Z (column_sum delta df) / Qc_of_Z (column_sum sales_prior df)
              * hundred)%Qc) /\
    ((column_sum sales_prior df <= 0)%Z ->
     change_rate (summary scenario_out) = NotComputable) /\
    (forall rng' chg' term' state'' shown',
        show_results ascii_ci_eqb no_other scenario_state rng' chg' term' =
        Return (state'', Some shown') ->
        metrics shown' = summary scenario_out).
Proof.
  apply (@summary_over_full_table ascii_ci_eqb no_other scenario_state (0, 150)%Z
           DecreaseOnly [] scenario_state (mkShown [row_B] (summary scenario_out))).
  vm_compute. reflexivity.
Defined.

Lemma negative_base_counterexample :
  analyze_sales_data (S := stable_sort) returns_prior returns_current =
    Return returns_out /\
  show_results ascii_ci_eqb no_other (session returns_out) (20, 50)%Z ShowAll [] =
    Return (session returns_out,
            Some (mkShown returns_out
                    (mkMetrics (-70) 70 140 NotComputable))).
Proof.
  split; vm_compute; reflexivity.
Qed.

Lemma filter_conjunction_witness :
  exists df name_ok,
    comparison_df scenario_state = Some df /\
    scenario_state = scenario_state /\
    (@nil N = [] -> forall r, name_ok r = true) /\
    (@nil N <> [] ->
     exists found, re_compile ascii_ci_eqb no_other [] = Some found /\
                   forall r, name_ok r = str_contains found (customer r)) /\
    (@nil N <> [] -> plain [] = true ->
     forall r, name_ok r = name_matches ascii_ci_eqb [] r) /\
    [row_B] =
      filter (fun r => in_range (0, 150)%Z r && change_matches DecreaseOnly r && name_ok r) df /\
    (forall r, In r [row_B] <->
               In r df /\
               (0 <= sales_current r <= 150)%Z /\
               (delta r < 0)%Z /\
               name_ok r = true) /\
    (forall lo hi, min_amount df = Return lo -> max_amount df = Return hi ->
                   filtering ascii_ci_eqb no_other df (lo, hi) ShowAll [] = Return df).
Proof.
  apply (@filter_conjunction ascii_ci_eqb no_other scenario_state (0, 150)%Z
           DecreaseOnly [] scenario_state (mkShown [row_B] (summary scenario_out))).
  vm_compute. reflexivity.
Defined.

Lemma search_filter_policy_witness :
  filtering ascii_ci_eqb no_other scenario_out (0, 150)%Z ShowAll (str_of "a") =
  Return (filter (name_matches ascii_ci_eqb (str_of "a"))
                 (filter (change_matches ShowAll)
                         (filter (in_range (0, 150)%Z) scenario_out))).
Proof.
  apply (proj1 (proj2 (@search_filter_policy ascii_ci_eqb no_other scenario_out
                         (0, 150)%Z ShowAll (str_of "a")))).
  - discriminate.
  - reflexivity.
Defined.

Example search_a_finds_A :
  filtering ascii_ci_eqb no_other scenario_out (0, 150)%Z ShowAll (str_of "a") =
  Return [row_A].
Proof. vm_compute. reflexivity. Qed.

Lemma dot_search_counterexample :
  analyze_sales_data (S := stable_sort) names_prior names_current =
    Return names_out /\
  filtering ascii_ci_eqb no_other names_out (10, 12)%Z ShowAll (str_of ".") =
    Return [row_XYZ; row_ABC] /\
  contains_ci ascii_ci_eqb (str_of ".") (str_of "XYZ") = false /\
  contains_ci ascii_ci_eqb (str_of ".") (str_of "ABC") = false.
Proof.
  repeat split; vm_compute; reflexivity.
Qed.

Lemma conjunction_search_counterexample :
  analyze_sales_data (S := stable_sort) names_prior names_current =
    Return names_out /\
  show_results ascii_ci_eqb no_other (session names_out)
               (0, 15)%Z IncreaseOnly (str_of "B.") =
    Return (session names_out, Some (mkShown [row_ABC] (summary names_out))) /\
  name_matches ascii_ci_eqb (str_of "B.") row_ABC = false.
Proof.
  repeat split; vm_compute; reflexivity.
Qed.

Lemma missing_amount_retained_counterexample :
  coerce_amount to_numeric_numbers [Some (str_of "A"); Some (str_of "B")]
                (Numeric [Some (Qc_of_Z 100); None]) None [] =
    (Return (Some (mkRetained [Some (str_of "A"); Some (str_of "B")]
                              [Some (Qc_of_Z 100); None] None)), []) /\
  exists t log,
    process_excel_data parsed to_numeric_numbers sheet_with_gap [] =
      (Return (Some t), log) /\
    map (fun a => (customer_name a, this (sales a))) (agg_rows t) =
      [(str_of "A", 100 # 1); (str_of "B", 0 # 1)]%Q.
Proof.
  split; [reflexivity|].
  do 2 eexists. split; vm_compute; reflexivity.
Qed.

Lemma amount_coercion_policy_witness :
  exists kept,
    coerce_amount to_numeric_numbers
      [Some (str_of "A"); Some (str_of "B"); Some (str_of "C")]
      (Object [CNum (Qc_of_Z 100); CText (str_of "n/a"); CNaN]) None [] =
    (Return (Some kept), [] ++ [Info_rows_excluded]) /\
    combine (kept_customer kept) (kept_amount kept) =
    filter (fun r => notna (snd r))
      (combine [Some (str_of "A"); Some (str_of "B"); Some (str_of "C")]
               [Some (Qc_of_Z 100); None; None]) /\
    kept_amount kept = filter notna [Some (Qc_of_Z 100); None; None] /\
    Forall (fun v => v <> None) (kept_amount kept).
Proof.
  apply (proj1 (@amount_coercion_policy to_numeric_numbers
                  [Some (str_of "A"); Some (str_of "B"); Some (str_of "C")] None [])).
  reflexivity.
Defined.

Lemma profit_coercion_keeps_column_witness :
  exists t,
    aggregate to_numeric_numbers kept_with_text_profit [] = (Return t, []) /\
    has_profit t = true /\
    sales_of t = groupby_sum (kept_customer kept_with_text_profit)
                             (kept_amount kept_with_text_profit) /\
    (forall a, In a (agg_rows t) ->
       gross_profit a =
       Some (group_sum (combine (kept_customer kept_with_text_profit)
                                [None; Some (Qc_of_Z 7)]) (customer_name a))) /\
    (Forall (fun y => y = None) [None; Some (Qc_of_Z 7)] ->
     forall a, In a (agg_rows t) -> gross_profit a = Some zero) /\
    (exists t0,
       aggregate to_numeric_numbers
                 (mkRetained (kept_customer kept_with_text_profit)
                             (kept_amount kept_with_text_profit) None) [] =
       (Return t0, []) /\
       has_profit t0 = false /\ sales_of t0 = sales_of t).
Proof.
  apply (@profit_coercion_keeps_column to_numeric_numbers kept_with_text_profit
           [CText (str_of "x"); CNum (Qc_of_Z 7)] [None; Some (Qc_of_Z 7)] []).
  - reflexivity.
  - reflexivity.
  - reflexivity.
  - reflexivity.
Defined.

Lemma text_profit_column_kept_counterexample :
  exists t,
    process_excel_data parsed to_numeric_numbers sheet_with_text_profit [] =
      (Return (Some t), []) /\
    has_profit t = true /\
    map (fun a => (customer_name a, this (sales a), option_map this (gross_profit a)))
        (agg_rows t) =
      [(str_of "A", 100 # 1, Some (0 # 1)); (str_of "B", 20 # 1, Some (0 # 1))]%Q.
Proof.
  eexists. split; [vm_compute; reflexivity|]. split; vm_compute; reflexivity.
Qed.

Example unreadable_file_gives_None :
  process_excel_data unreadable to_numeric_numbers sheet_with_gap [] =
  (Return None, [Error_processing (LibraryError "BadZipFile")]).
Proof. reflexivity. Qed.

Example missing_amount_column :
  process_excel_data parsed to_numeric_numbers sheet_without_amount [] =
  (Return None, [Error_missing_required [COL_AMOUNT]; Info_required_columns]).
Proof. vm_compute. reflexivity. Qed.

Lemma process_excel_data_never_raises_witness :
  exists r log',
    process_excel_data unreadable to_numeric_numbers sheet_with_gap [] =
    (Return r, log') /\
    r = None.
Proof.
  destruct (@process_excel_data_never_raises DataFrame unreadable
              to_numeric_numbers sheet_with_gap [])
    as (r & log' & H & _ & Hr).
  exists r, log'. split; [exact H|].
  apply (Hr (LibraryError "BadZipFile")). reflexivity.
Defined.

Example text_amount_row_dropped :
  exists t,
    process_excel_data parsed to_numeric_numbers sheet_with_text [] =
      (Return (Some t),
       [Warning_missing_optional [COL_PROFIT]; Info_rows_excluded]) /\
    has_profit t = false /\
    map (fun a => (customer_name a, this (sales a))) (agg_rows t) =
      [(str_of "A", 150 # 1)]%Q.
Proof.
  eexists. split; [vm_compute; reflexivity|]. split; vm_compute; reflexivity.
Qed.

(** A profit column of text that converts, cell by cell to NaN, is not
    dropped: the sums skip the NaN cells. *)
Example text_profit_sums_skip_text :
  exists t,
    aggregate to_numeric_numbers kept_with_text_profit [] = (Return t, []) /\
    has_profit t = true /\
    map (fun a => (customer_name a, this (sales a), option_map this (gross_profit a)))
        (agg_rows t) =
      [(str_of "A", 120 # 1, Some (7 # 1))]%Q.
Proof.
  eexists. split; [vm_compute; reflexivity|]. split; vm_compute; reflexivity.
Qed.

(* ------------------------------------------------------------------ *)
(** * Further properties *)

(** ** Further properties of the reconciliation *)

Lemma matching_nonempty c t : In c (keys t) -> matching c t <> [].
Proof.
  unfold keys, matching. intros H E.
  apply in_map_iff in H. destruct H as [a [Ha Hin]].
  assert (Hf : In a (filter (fun r => str_eqb (customer_name r) c) (agg_rows t))).
  { apply filter_In. split; [exact Hin|]. apply str_eqb_eq. exact Ha. }
  rewrite E in Hf. contradiction.
Qed.

Lemma join_key_nonempty L R c : In c (keys L ++ keys R) -> join_key L R c <> [].
Proof.
  intros H. unfold join_key. apply in_app_or in H.
  destruct (matching c L) as [|l ls] eqn:EL; destruct (matching c R) as [|r rs] eqn:ER;
    simpl; try discriminate.
  destruct H as [H|H]; apply matching_nonempty in H; congruence.
Qed.

Lemma unrounded_no_rows L R :
  unrounded L R = [] <-> agg_rows L = [] /\ agg_rows R = [].
Proof.
  unfold unrounded. split.
  - intros H.
    do 3 (apply map_eq_nil in H).
    assert (Hk : keys L ++ keys R = []).
    { destruct (keys L ++ keys R) as [|c ks] eqn:E; [reflexivity|]. exfalso.
      assert (Hin : In c (keys L ++ keys R)) by (rewrite E; left; reflexivity).
      pose proof (@join_key_nonempty L R c Hin) as Hne.
      apply merge_keys_In in Hin.
      destruct (join_key L R c) as [|m ms] eqn:Ej; [congruence|].
      assert (Hm : In m (pd_merge_outer L R)).
      { unfold pd_merge_outer. apply in_flat_map. exists c. split; [exact Hin|].
        rewrite Ej. left. reflexivity. }
      rewrite H in Hm. contradiction. }
    apply app_eq_nil in Hk. destruct Hk as [HL HR]. unfold keys in *.
    apply map_eq_nil in HL. apply map_eq_nil in HR. split; assumption.
  - intros [HL HR]. unfold pd_merge_outer, keys. rewrite HL, HR. reflexivity.
Qed.

(** X1.  [analyze_sales_data] raises, with IndexError, exactly when neither
    table has a row; as soon as one of them has a row it returns a table
    with at least one row. *)
Theorem analyze_raises_only_without_rows (S : SortValues) (L R : AggTable) :
  (agg_rows L = [] /\ agg_rows R = [] ->
   analyze_sales_data L R = Raise IndexError) /\
  (agg_rows L <> [] \/ agg_rows R <> [] ->
   exists out, analyze_sales_data L R = Return out /\ out <> []).
Proof.
  split.
  - intros H. apply unrounded_no_rows in H.
    unfold analyze_sales_data. rewrite H. reflexivity.
  - intros H.
    assert (Hne : unrounded L R <> []).
    { intros E. apply unrounded_no_rows in E. destruct E as [HL HR].
      destruct H as [H|H]; contradiction. }
    rewrite (@analyze_rows S L R Hne). eexists. split; [reflexivity|].
    intros E.
    pose proof (sort_values_perm sales_current
                  (map (round_row (rate_is_numeric (unrounded L R))) (unrounded L R))) as P.
    rewrite E in P. apply Permutation_sym, Permutation_nil in P.
    apply map_eq_nil in P. contradiction.
Qed.

Lemma flat_map_singletons {A B} (f : A -> list B) (g : A -> B) l :
  (forall x, In x l -> f x = [g x]) -> flat_map f l = map g l.
Proof.
  induction l as [|x l IH]; intros H; simpl; [reflexivity|].
  rewrite (H x (or_introl eq_refl)). simpl. f_equal. apply IH.
  intros y Hy. apply H. right. exact Hy.
Qed.

Lemma merge_distinct L R :
  NoDup (keys L) -> NoDup (keys R) ->
  pd_merge_outer L R =
  map (fun c => join_row L R c (lookup c L) (lookup c R))
      (sort_keys (nodup str_eq_dec (keys L ++ keys R))).
Proof.
  intros HL HR. unfold pd_merge_outer. apply flat_map_singletons.
  intros c Hc. apply merge_keys_In in Hc. apply join_key_distinct; assumption.
Qed.

Lemma unrounded_customers L R :
  NoDup (keys L) -> NoDup (keys R) ->
  map c_customer (unrounded L R) = sort_keys (nodup str_eq_dec (keys L ++ keys R)).
Proof.
  intros HL HR. unfold unrounded. rewrite merge_distinct by assumption.
  rewrite !map_map. simpl.
  rewrite map_ext with (g := fun c => c); [apply map_id|].
  intros c. rewrite replace_inf_customer. reflexivity.
Qed.

Lemma NoDup_map_Some {A} (l : list A) : NoDup l -> NoDup (map Some l).
Proof.
  induction 1 as [|x l Hx Hl IH]; simpl; constructor; [|exact IH].
  intros H. apply in_map_iff in H. destruct H as [y [E Hy]].
  injection E as ->. contradiction.
Qed.

(** X2.  For tables with distinct customer names, the customers of the
    returned table are the customers of the two tables, each once: as many
    rows as distinct names, and no row for anyone else. *)
Theorem one_row_per_customer_no_more (S : SortValues) (L R : AggTable) (out : list Row) :
  NoDup (keys L) -> NoDup (keys R) ->
  analyze_sales_data L R = Return out ->
  Permutation (map customer out)
              (map Some (nodup str_eq_dec (keys L ++ keys R))) /\
  NoDup (map customer out) /\
  List.length out = List.length (nodup str_eq_dec (keys L ++ keys R)) /\
  (forall r, In r out ->
             exists c, customer r = Some c /\ In c (keys L ++ keys R)).
Proof.
  intros HL HR H. apply analyze_inv in H. destruct H as [_ ->].
  set (b := rate_is_numeric (unrounded L R)).
  assert (P : Permutation
                (map customer (sort_values sales_current (map (round_row b) (unrounded L R))))
                (map Some (nodup str_eq_dec (keys L ++ keys R)))).
  { eapply Permutation_trans.
    - apply Permutation_map, Permutation_sym, sort_values_perm.
    - rewrite map_map. simpl.
      rewrite <- (map_map c_customer Some).
      rewrite unrounded_customers by assumption.
      apply Permutation_map, Permutation_sym, isort_perm. }
  split; [exact P|]. split; [|split].
  - eapply Permutation_NoDup; [apply Permutation_sym, P|].
    apply NoDup_map_Some, NoDup_nodup.
  - rewrite <- (length_map customer), <- (length_map (@Some str)).
    apply Permutation_length. exact P.
  - intros r Hr.
    assert (Hin : In (customer r) (map Some (nodup str_eq_dec (keys L ++ keys R)))).
    { eapply Permutation_in; [exact P|]. apply in_map. exact Hr. }
    apply in_map_iff in Hin. destruct Hin as [c [Hc Hin]].
    exists c. split; [symmetry; exact Hc|]. apply (nodup_In str_eq_dec). exact Hin.
Qed.

(** ** Whole amounts *)

Lemma is_whole_spec q : is_whole q = true -> exists z, q = Qc_of_Z z.
Proof.
  unfold is_whole. intros H. apply Qc_eqb_eq in H. eexists. exact H.
Qed.

Lemma whole_zero : whole zero.
Proof. exists 0%Z. reflexivity. Qed.

Lemma whole_sales t a : whole_amounts t = true -> In a (agg_rows t) -> whole (sales a).
Proof.
  unfold whole_amounts. intros H Ha.
  rewrite forallb_forall in H. apply is_whole_spec. apply H. exact Ha.
Qed.

Lemma join_key_amounts L R k m :
  In m (join_key L R k) ->
  (m_prior m = None \/ exists a, In a (agg_rows L) /\ m_prior m = Some (sales a)) /\
  (m_current m = None \/ exists a, In a (agg_rows R) /\ m_current m = Some (sales a)).
Proof.
  unfold join_key. intros H.
  assert (HL : forall a, In a (matching k L) -> In a (agg_rows L))
    by (intros a Ha; apply filter_In in Ha; tauto).
  assert (HR : forall a, In a (matching k R) -> In a (agg_rows R))
    by (intros a Ha; apply filter_In in Ha; tauto).
  destruct (matching k L) as [|l ls]; [|destruct (matching k R) as [|r0 rs]].
  - apply in_map_iff in H. destruct H as [r [<- Hr]]. simpl. split; [left; reflexivity|].
    right. exists r. split; [apply HR; exact Hr | reflexivity].
  - apply in_map_iff in H. destruct H as [l0 [<- Hl]]. simpl. split; [|left; reflexivity].
    right. exists l0. split; [apply HL; exact Hl | reflexivity].
  - apply in_flat_map in H. destruct H as [l0 [Hl H]].
    apply in_map_iff in H. destruct H as [r [<- Hr]]. simpl. split; right.
    + exists l0. split; [apply HL; exact Hl | reflexivity].
    + exists r. split; [apply HR; exact Hr | reflexivity].
Qed.

Lemma unrounded_amounts L R w :
  In w (unrounded L R) ->
  (c_prior w = zero \/ exists a, In a (agg_rows L) /\ c_prior w = sales a) /\
  (c_current w = zero \/ exists a, In a (agg_rows R) /\ c_current w = sales a).
Proof.
  unfold unrounded. intros H.
  apply in_map_iff in H. destruct H as [v [<- H]].
  apply in_map_iff in H. destruct H as [f [<- H]].
  apply in_map_iff in H. destruct H as [m [<- H]].
  unfold pd_merge_outer in H. apply in_flat_map in H. destruct H as [k [_ H]].
  apply join_key_amounts in H. destruct H as [[Hp|[a [Ha Hp]]] [Hc|[a' [Ha' Hc]]]];
    assert (E1 : c_prior (replace_inf (add_delta_rate (fillna m))) = fill0 (m_prior m))
      by (unfold replace_inf; destruct (c_rate (add_delta_rate (fillna m))); reflexivity);
    assert (E2 : c_current (replace_inf (add_delta_rate (fillna m))) = fill0 (m_current m))
      by (unfold replace_inf; destruct (c_rate (add_delta_rate (fillna m))); reflexivity);
    rewrite E1, E2, Hp, Hc; simpl; split;
    solve [ left; reflexivity | right; eexists; split; [eassumption | reflexivity] ].
Qed.

Lemma unrounded_whole L R w :
  whole_amounts L = true -> whole_amounts R = true ->
  In w (unrounded L R) ->
  exists p c, c_prior w = Qc_of_Z p /\ c_current w = Qc_of_Z c /\
              c_delta w = Qc_of_Z (c - p).
Proof.
  intros HL HR Hw.
  destruct (@unrounded_amounts L R w Hw) as [Hp Hc].
  destruct (@unrounded_row L R w Hw) as [Hd _].
  assert (Wp : whole (c_prior w)).
  { destruct Hp as [->|[a [Ha ->]]]; [apply whole_zero | apply (@whole_sales L a HL Ha)]. }
  assert (Wc : whole (c_current w)).
  { destruct Hc as [->|[a [Ha ->]]]; [apply whole_zero | apply (@whole_sales R a HR Ha)]. }
  destruct Wp as [p Ep], Wc as [c Ec]. exists p, c.
  split; [exact Ep|]. split; [exact Ec|].
  rewrite Hd, Ep, Ec. apply Qc_of_Z_minus.
Qed.

(** X3.  When all amounts of both tables are whole numbers, the rounding
    changes nothing: the prior and current amount of a returned row are the
    amounts before rounding, and its delta is current minus prior. *)
Theorem whole_amounts_unchanged (S : SortValues) (L R : AggTable) (out : list Row) (r : Row) :
  whole_amounts L = true -> whole_amounts R = true ->
  analyze_sales_data L R = Return out -> In r out ->
  (exists w, In w (unrounded L R) /\
             customer r = Some (c_customer w) /\
             c_prior w = Qc_of_Z (sales_prior r) /\
             c_current w = Qc_of_Z (sales_current r)) /\
  delta r = (sales_current r - sales_prior r)%Z.
Proof.
  intros HL HR H Hr.
  destruct (@analyze_row_origin S L R out r H Hr) as [w [Hw ->]].
  destruct (@unrounded_whole L R w HL HR Hw) as (p & c & Ep & Ec & Ed).
  simpl. rewrite Ep, Ec, Ed, !round_half_even_whole. split; [|reflexivity].
  exists w. rewrite Ep, Ec. repeat split. exact Hw.
Qed.

Lemma column_sum_cons col r rows :
  column_sum col (r :: rows) = (col r + column_sum col rows)%Z.
Proof. reflexivity. Qed.

Lemma totals_balance rows :
  (forall r, In r rows -> delta r = (sales_current r - sales_prior r)%Z) ->
  column_sum delta rows =
  (column_sum sales_current rows - column_sum sales_prior rows)%Z.
Proof.
  induction rows as [|r rows IH]; intros H; [reflexivity|].
  rewrite !column_sum_cons, IH by (intros x Hx; apply H; right; exact Hx).
  rewrite (H r (or_introl eq_refl)). lia.
Qed.

(** X4.  When all amounts of both tables are whole numbers, the total delta
    of the summary is the current total minus the prior total. *)
Theorem whole_amounts_totals_balance (S : SortValues) (L R : AggTable) (out : list Row) :
  whole_amounts L = true -> whole_amounts R = true ->
  analyze_sales_data L R = Return out ->
  total_change (summary out) =
  (current_total (summary out) - prior_total (summary out))%Z.
Proof.
  intros HL HR H. unfold summary. simpl. apply totals_balance.
  intros r Hr.
  destruct (@analyze_row_origin S L R out r H Hr) as [w [Hw ->]].
  destruct (@unrounded_whole L R w HL HR Hw) as (p & c & Ep & Ec & Ed).
  simpl. rewrite Ep, Ec, Ed, !round_half_even_whole. reflexivity.
Qed.

(** With halves the rounded columns need not balance. *)
Example halves_do_not_balance :
  exists r,
    analyze_sales_data (S := stable_sort)
      (mkAggTable false [mkAggRow (str_of "A") (Q2Qc (1 # 2)) None])
      (mkAggTable false [mkAggRow (str_of "A") (Q2Qc (3 # 2)) None]) = Return [r] /\
    sales_prior r = 0%Z /\ sales_current r = 2%Z /\ delta r = 1%Z /\
    total_change (summary [r]) = 1%Z /\
    (current_total (summary [r]) - prior_total (summary [r]) = 2)%Z.
Proof.
  eexists. split; [vm_compute; reflexivity|]. repeat split.
Qed.

(** ** Customers of one period only *)

Lemma analyze_row_of_customer (S : SortValues) L R out c :
  NoDup (keys L) -> NoDup (keys R) -> In c (keys L ++ keys R) ->
  analyze_sales_data L R = Return out ->
  filter (customer_is c) out =
  [round_row (rate_is_numeric (unrounded L R))
     (replace_inf (add_delta_rate (fillna (join_row L R c (lookup c L) (lookup c R)))))].
Proof.
  intros HL HR Hin H. apply analyze_inv in H. destruct H as [_ ->].
  pose proof (@unrounded_rows_of_customer L R c HL HR Hin) as Hu.
  apply Permutation_length_1_inv.
  eapply Permutation_trans; [|apply filter_perm, sort_values_perm].
  rewrite filter_map_swap.
  rewrite filter_ext with (g := calc_is c); [rewrite Hu; apply Permutation_refl|].
  intros r. reflexivity.
Qed.

Lemma minus_hundred : Qc_of_Z (-100) = (- hundred)%Qc.
Proof. apply Qc_is_canon. vm_compute. reflexivity. Qed.

Lemma lost_rate (p : Qc) : p <> zero -> ((zero - p) / p * hundred)%Qc = Qc_of_Z (-100).
Proof.
  intros Hp. rewrite minus_hundred. change zero with 0%Qc in *. field. exact Hp.
Qed.

(** X5.  For tables with distinct customer names: a customer of the prior
    table only, with a prior amount other than 0, has current amount 0 and
    rate -100; a customer of the current table only has prior amount 0, the
    text 新規/完全減少 as rate and the current amount as delta. *)
Theorem lost_and_new_customers (S : SortValues) (L R : AggTable) (out : list Row) (c : str) :
  NoDup (keys L) -> NoDup (keys R) ->
  analyze_sales_data L R = Return out ->
  (forall a, lookup c L = Some a -> ~ In c (keys R) -> sales a <> zero ->
             exists r, filter (customer_is c) out = [r] /\
                       sales_prior r = round_half_even (sales a) /\
                       sales_current r = 0%Z /\
                       rate_value (rate r) = Some (Qc_of_Z (-100))) /\
  (forall a, ~ In c (keys L) -> lookup c R = Some a ->
             exists r, filter (customer_is c) out = [r] /\
                       sales_prior r = 0%Z /\
                       sales_current r = round_half_even (sales a) /\
                       delta r = sales_current r /\
                       rate r = RateText NEW_OR_LOST).
Proof.
  intros HL HR H. split.
  - intros a Ha HnR Hnz.
    assert (Hin : In c (keys L ++ keys R)).
    { apply in_or_app. left. destruct (in_dec str_eq_dec c (keys L)) as [i|n]; [exact i|].
      apply lookup_None in n. congruence. }
    rewrite (@analyze_row_of_customer S L R out c HL HR Hin H).
    apply lookup_None in HnR. rewrite Ha, HnR.
    eexists. split; [reflexivity|].
    unfold replace_inf, add_delta_rate, fillna, join_row. simpl.
    apply Qc_eqb_neq in Hnz. rewrite Hnz. simpl.
    split; [reflexivity|]. split; [apply (round_half_even_whole 0)|].
    rewrite lost_rate by (apply Qc_eqb_neq; exact Hnz).
    destruct (rate_is_numeric (unrounded L R)); simpl; [|reflexivity].
    rewrite round_half_even_whole. reflexivity.
  - intros a HnL Ha.
    assert (Hin : In c (keys L ++ keys R)).
    { apply in_or_app. right. destruct (in_dec str_eq_dec c (keys R)) as [i|n]; [exact i|].
      apply lookup_None in n. congruence. }
    rewrite (@analyze_row_of_customer S L R out c HL HR Hin H).
    apply lookup_None in HnL. rewrite Ha, HnL.
    eexists. split; [reflexivity|].
    unfold replace_inf, add_delta_rate, fillna, join_row. simpl.
    split; [apply (round_half_even_whole 0)|]. split; [reflexivity|]. split.
    + f_equal. change zero with 0%Qc. ring.
    + destruct (rate_is_numeric (unrounded L R)); reflexivity.
Qed.

(** ** Group sums *)

Lemma total_groups (f : str -> Qc) ks :
  total (map (fun k => (k, f k)) ks) = sum_over f ks.
Proof.
  induction ks as [|k ks IH]; simpl; [reflexivity|]. rewrite IH. reflexivity.
Qed.

Lemma nansum_cons v vs : nansum (v :: vs) = (fill0 v + nansum vs)%Qc.
Proof.
  destruct v as [q|]; simpl; [reflexivity|].
  change zero with 0%Qc. ring.
Qed.

Lemma group_sum_record (k' : str) (v : num) recs k :
  group_sum ((Some k', v) :: recs) k =
  ((if str_eqb k' k then fill0 v else zero) + group_sum recs k)%Qc.
Proof.
  unfold group_sum. cbn [filter]. unfold in_group at 1. cbn [fst].
  destruct (str_eqb k' k).
  - cbn [map snd]. apply nansum_cons.
  - change zero with 0%Qc. ring.
Qed.

Lemma mem_In k ks : mem k ks = true <-> In k ks.
Proof.
  unfold mem. rewrite existsb_exists. split.
  - intros [x [Hx E]]. apply str_eqb_eq in E. subst x. exact Hx.
  - intros H. exists k. split; [exact H | apply str_eqb_refl].
Qed.

Lemma sum_over_record (k' : str) (v : num) recs ks :
  NoDup ks ->
  sum_over (group_sum ((Some k', v) :: recs)) ks =
  ((if mem k' ks then fill0 v else zero) + sum_over (group_sum recs) ks)%Qc.
Proof.
  induction 1 as [|k ks Hk Hnd IH].
  - simpl. change zero with 0%Qc. ring.
  - cbn [sum_over fold_right]. fold (sum_over (group_sum ((Some k', v) :: recs)) ks).
    fold (sum_over (group_sum recs) ks).
    rewrite IH, group_sum_record. unfold mem at 2. cbn [existsb]. fold (mem k' ks).
    destruct (str_eqb k' k) eqn:E.
    + apply str_eqb_eq in E. subst k'.
      destruct (mem k ks) eqn:M; [apply mem_In in M; contradiction|].
      cbn [orb]. change zero with 0%Qc. ring.
    + cbn [orb]. change zero with 0%Qc. ring.
Qed.

Lemma sum_over_no_customer (v : num) recs ks :
  sum_over (group_sum ((None, v) :: recs)) ks = sum_over (group_sum recs) ks.
Proof.
  induction ks as [|k ks IH]; simpl; [reflexivity|]. rewrite IH. reflexivity.
Qed.

Lemma sum_over_nothing ks : sum_over (group_sum []) ks = zero.
Proof.
  induction ks as [|k ks IH]; [reflexivity|].
  cbn [sum_over fold_right]. fold (sum_over (group_sum []) ks). rewrite IH.
  unfold group_sum. cbn [filter map nansum fold_right].
  change (Qc_of_Z 0) with 0%Qc. change zero with 0%Qc. ring.
Qed.

Lemma sum_over_groups recs ks :
  NoDup ks ->
  sum_over (group_sum recs) ks = nansum (map snd (filter (known ks) recs)).
Proof.
  intros Hnd. induction recs as [|[k v] recs IH].
  - apply sum_over_nothing.
  - destruct k as [k'|].
    + rewrite sum_over_record by exact Hnd. rewrite IH.
      cbn [filter]. unfold known at 2. cbn [fst].
      destruct (mem k' ks).
      * cbn [map snd]. rewrite nansum_cons. reflexivity.
      * change zero with 0%Qc. ring.
    + rewrite sum_over_no_customer, IH. reflexivity.
Qed.

(** X7.  The group sums add up to the sum of the amounts of all records that
    have a customer; records without a customer are not counted. *)
Theorem group_sums_conserve_total (customers : list (option str)) (vals : list num) :
  total (groupby_sum customers vals) =
  nansum (map snd (filter has_customer (combine customers vals))).
Proof.
  unfold groupby_sum.
  set (recs := combine customers vals).
  rewrite (total_groups (group_sum recs)).
  rewrite sum_over_groups by apply group_keys_NoDup.
  f_equal. f_equal. apply filter_ext_in. intros [k v] Hr.
  unfold known, has_customer. simpl. destruct k as [k|]; [|reflexivity]. simpl.
  apply mem_In. apply (@group_keys_In recs k v Hr).
Qed.

(** *** Order of the keys *)

Lemma str_leb_total a b : str_leb a b = false -> str_leb b a = true.
Proof.
  revert b. induction a as [|x a IH]; intros [|y b]; simpl; try congruence.
  destruct (N.ltb x y) eqn:E1; [discriminate|].
  destruct (N.eqb x y) eqn:E2.
  - apply N.eqb_eq in E2. subst y. rewrite E1, N.eqb_refl. apply IH.
  - intros _. apply N.ltb_ge in E1. apply N.eqb_neq in E2.
    assert (H : (y < x)%N) by lia. apply N.ltb_lt in H. rewrite H. reflexivity.
Qed.

Lemma sort_keys_sorted ks : Sorted (fun a b => str_leb a b = true) (sort_keys ks).
Proof.
  unfold sort_keys. apply isort_sorted.
  - intros x y H. exact H.
  - apply str_leb_total.
Qed.

(** ** Further properties of the ingestion *)

Lemma missing_required_spec df :
  filter (not_in (columns df)) required_columns =
  (if present (col_customer df) then [] else [COL_CUSTOMER]) ++
  (if present (col_amount df) then [] else [COL_AMOUNT]).
Proof.
  destruct df as [c a h i p]. destruct c, a, h, i, p; reflexivity.
Qed.

Section IngestionMessages.
Variable File : Type.
Variable read_excel : File -> result DataFrame.
Variable to_numeric : list cell -> result (list num).

(** X8.  When the sheet lacks 得意先 or 受注額, [process_excel_data] returns
    [None] after an error that names exactly the required columns that are
    missing, and an info message; nothing else is shown. *)
Theorem missing_required_columns_reported (file : File) (df : DataFrame)
        (log : list notice) :
  read_excel file = Return df ->
  col_customer df = None \/ col_amount df = None ->
  process_excel_data read_excel to_numeric file log =
  (Return None,
   log ++ [Error_missing_required
             ((if present (col_customer df) then [] else [COL_CUSTOMER]) ++
              (if present (col_amount df) then [] else [COL_AMOUNT]));
           Info_required_columns]).
Proof.
  intros Hread Hmiss.
  unfold process_excel_data, try_except, process_body, bind, lift, show, ret.
  rewrite Hread, missing_required_spec.
  destruct Hmiss as [H|H]; rewrite H; simpl.
  - rewrite <- app_assoc. reflexivity.
  - destruct (present (col_customer df)); simpl; rewrite <- app_assoc; reflexivity.
Qed.

Lemma aggregate_keys df log t log' :
  aggregate to_numeric df log = (Return t, log') ->
  keys t = group_keys (combine (kept_customer df) (kept_amount df)).
Proof.
  intros H.
  destruct (aggregate_sales to_numeric df log) as (t0 & log0 & H0 & Hs).
  rewrite H in H0. injection H0 as <- <-.
  rewrite <- groupby_sum_keys, <- Hs. unfold keys. rewrite map_map. reflexivity.
Qed.

Lemma process_keys file log t log' :
  process_excel_data read_excel to_numeric file log = (Return (Some t), log') ->
  exists recs, keys t = group_keys recs.
Proof.
  unfold process_excel_data, try_except, process_body, bind, lift, show, ret.
  destruct (read_excel file) as [df|e]; [|intros H; discriminate].
  destruct (filter (not_in (columns df)) required_columns); [|intros H; discriminate].
  destruct (filter (not_in (columns df)) optional_columns);
    (destruct (col_customer df) as [customers|]; [|intros H; discriminate];
     destruct (col_amount df) as [amounts|]; [|intros H; discriminate];
     match goal with
     | |- context [coerce_amount ?f ?c ?a ?p ?l] =>
         destruct (coerce_amount f c a p l) as [[[kept|]|e] log1]; try (intros H; discriminate)
     end;
     match goal with
     | |- context [aggregate ?f ?d ?l] =>
         destruct (aggregate f d l) as [[t0|e] log2] eqn:E; try (intros H; discriminate)
     end;
     intros H; injection H as <- <-;
     eexists; apply (@aggregate_keys _ _ _ _ E)).
Qed.

(** X11.  The customer names of every table [process_excel_data] returns are
    distinct and in ascending order. *)
Theorem returned_customers_ordered (file : File) (log : list notice)
        (t : AggTable) (log' : list notice) :
  process_excel_data read_excel to_numeric file log = (Return (Some t), log') ->
  NoDup (keys t) /\ Sorted (fun a b => str_leb a b = true) (keys t).
Proof.
  intros H. apply process_keys in H. destruct H as [recs ->]. split.
  - apply group_keys_NoDup.
  - apply sort_keys_sorted.
Qed.

End IngestionMessages.

(** *** The profit sums *)

Section ProfitSums.
Variable to_numeric : list cell -> result (list num).

(** X12.  When the profit column is numeric, or has dtype object and
    converts, and the columns have one length, the table has the profit
    column and every customer's profit is a number: the sum of the profit
    cells of its records, NaN skipped. *)
Theorem profit_sums_complete (df : Retained) (c : column) (ys : list num)
        (log : list notice) :
  kept_profit df = Some c ->
  (c = Numeric ys \/ exists xs, c = Object xs /\ to_numeric xs = Return ys) ->
  List.length (kept_customer df) = List.length (kept_amount df) ->
  List.length (kept_customer df) = List.length ys ->
  exists t,
    aggregate to_numeric df log = (Return t, log) /\
    has_profit t = true /\
    sales_of t = groupby_sum (kept_customer df) (kept_amount df) /\
    forall a, In a (agg_rows t) ->
      gross_profit a =
      Some (nansum (map snd (filter (in_group (customer_name a))
                                    (combine (kept_customer df) ys)))).
Proof.
  intros Hp Hc Hlen1 Hlen2.
  set (result_df := groupby_sum (kept_customer df) (kept_amount df)).
  exists (with_profit (kept_customer df) result_df (Numeric ys)).
  assert (Hagg : aggregate to_numeric df log =
                 (Return (with_profit (kept_customer df) result_df (Numeric ys)), log)).
  { unfold aggregate. rewrite Hp. fold result_df.
    destruct Hc as [->|[xs [-> Hys]]].
    - reflexivity.
    - unfold coerce_profit, try_except, bind, lift, ret. rewrite Hys. reflexivity. }
  split; [exact Hagg|]. split; [reflexivity|]. split.
  - unfold sales_of, with_profit. simpl. rewrite map_map. simpl.
    rewrite <- (map_id result_df) at 2. apply map_ext. intros [k v]. reflexivity.
  - intros a Ha. unfold with_profit in Ha. simpl in Ha.
    apply in_map_iff in Ha. destruct Ha as [[k v] [<- Hin]]. simpl.
    assert (Hk : In k (group_keys (combine (kept_customer df) ys))).
    { rewrite group_keys_of_customers by lia.
      rewrite <- group_keys_of_customers with (vals := kept_amount df) by lia.
      rewrite <- groupby_sum_keys. fold result_df.
      apply in_map_iff. exists (k, v). split; [reflexivity | exact Hin]. }
    unfold lookup_sum, groupby_sum.
    rewrite (find_key (fun k => nansum (map snd (filter (in_group k)
                                   (combine (kept_customer df) ys))))).
    destruct (in_dec str_eq_dec k (group_keys (combine (kept_customer df) ys)));
      [reflexivity | contradiction].
Qed.

End ProfitSums.

(** ** The page: filters, chart rows and uploads *)

Lemma analyze_nonempty (S : SortValues) L R out :
  analyze_sales_data L R = Return out -> out <> [].
Proof.
  intros H E. apply analyze_inv in H. destruct H as [Hne H]. rewrite E in H.
  pose proof (sort_values_perm sales_current
                (map (round_row (rate_is_numeric (unrounded L R))) (unrounded L R))) as P.
  rewrite <- H in P. apply Permutation_sym, Permutation_nil in P.
  apply map_eq_nil in P. contradiction.
Qed.

Lemma analyze_sorted (S : SortValues) L R out :
  analyze_sales_data L R = Return out ->
  StronglySorted (fun a b => (sales_current b <= sales_current a)%Z) out.
Proof.
  intros H. apply analyze_inv in H. destruct H as [_ ->].
  apply Sorted_StronglySorted.
  - intros a b c Hab Hbc. lia.
  - apply sort_values_desc.
Qed.

Lemma StronglySorted_filter {A} (R : A -> A -> Prop) (p : A -> bool) l :
  StronglySorted R l -> StronglySorted R (filter p l).
Proof.
  induction 1 as [|x l Hs IH Hx]; simpl; [constructor|].
  destruct (p x); [|exact IH]. constructor; [exact IH|].
  apply Forall_forall. intros y Hy. apply filter_In in Hy.
  rewrite Forall_forall in Hx. apply Hx. tauto.
Qed.

Lemma StronglySorted_app {A} (R : A -> A -> Prop) l1 l2 :
  StronglySorted R (l1 ++ l2) -> forall a b, In a l1 -> In b l2 -> R a b.
Proof.
  induction l1 as [|x l1 IH]; simpl; intros H a b Ha Hb; [contradiction|].
  inversion H as [|? ? Hs Hx]; subst. destruct Ha as [<-|Ha].
  - rewrite Forall_forall in Hx. apply Hx. apply in_or_app. right. exact Hb.
  - apply IH; assumption.
Qed.

Section PageProperties.
Variable ci_eqb : N -> N -> bool.
Variable re_other : str -> option (str -> bool).

Lemma filtering_view df rng chg term view :
  filtering ci_eqb re_other df rng chg term = Return view ->
  exists name_ok,
    view = filter name_ok (filter (change_matches chg) (filter (in_range rng) df)).
Proof.
  rewrite filtering_steps. cbv zeta. destruct term as [|c term].
  - intros H. injection H as <-. exists (fun _ => true). symmetry. apply filter_true.
  - destruct (re_compile ci_eqb re_other (c :: term)) as [found|]; [|discriminate].
    intros H. injection H as <-. eexists. reflexivity.
Qed.

(** X13.  With the same range and search term, 増加のみ shows the rows of
    すべて表示 with a positive delta and 減少のみ those with a negative delta;
    no row is in both, and a row with delta 0 is in neither. *)
Theorem increase_and_decrease_views (df : list Row) (rng : Z * Z) (term : str)
        (every up down : list Row) :
  filtering ci_eqb re_other df rng ShowAll term = Return every ->
  filtering ci_eqb re_other df rng IncreaseOnly term = Return up ->
  filtering ci_eqb re_other df rng DecreaseOnly term = Return down ->
  (forall r, In r up <-> In r every /\ (0 < delta r)%Z) /\
  (forall r, In r down <-> In r every /\ (delta r < 0)%Z) /\
  (forall r, In r up -> ~ In r down) /\
  (forall r, In r every -> delta r = 0%Z -> ~ In r up /\ ~ In r down).
Proof.
  rewrite !filtering_steps. cbv zeta.
  assert (Hcore : forall name_ok,
     (forall r, In r (filter name_ok (filter (change_matches IncreaseOnly)
                                        (filter (in_range rng) df))) <->
                In r (filter name_ok (filter (change_matches ShowAll)
                                        (filter (in_range rng) df))) /\ (0 < delta r)%Z) /\
     (forall r, In r (filter name_ok (filter (change_matches DecreaseOnly)
                                        (filter (in_range rng) df))) <->
                In r (filter name_ok (filter (change_matches ShowAll)
                                        (filter (in_range rng) df))) /\ (delta r < 0)%Z)).
  { intros name_ok. split; intros r; rewrite !filter_In; simpl;
      rewrite ?Z.ltb_lt; tauto. }
  intros He Hu Hd.
  assert (H : (forall r, In r up <-> In r every /\ (0 < delta r)%Z) /\
              (forall r, In r down <-> In r every /\ (delta r < 0)%Z)).
  { destruct term as [|c term].
    - injection He as <-. injection Hu as <-. injection Hd as <-.
      split; intros r; rewrite !filter_In; simpl; rewrite ?Z.ltb_lt; tauto.
    - destruct (re_compile ci_eqb re_other (c :: term)) as [found|]; [|discriminate].
      injection He as <-. injection Hu as <-. injection Hd as <-.
      apply Hcore. }
  destruct H as [H1 H2]. split; [exact H1|]. split; [exact H2|]. split.
  - intros r Hu' Hd'. apply H1 in Hu'. apply H2 in Hd'. lia.
  - intros r _ Hz. split; intros Hin; [apply H1 in Hin | apply H2 in Hin]; lia.
Qed.

(** X14.  The filtered table of an analysed pair keeps the descending order
    of current amounts, so the rows of the charts, its first [top_n] rows
    (at most 20, all of them when there are no more), have current amounts
    at least as large as every row left out. *)
Theorem chart_rows_lead (S : SortValues) (L R : AggTable) (df : list Row)
        (rng : Z * Z) (chg : ChangeOption) (term : str) (view : list Row) (top_n : Z) :
  analyze_sales_data L R = Return df ->
  filtering ci_eqb re_other df rng chg term = Return view ->
  (5 <= top_n <= 20)%Z ->
  StronglySorted (fun a b => (sales_current b <= sales_current a)%Z) view /\
  view = top_customers view top_n ++ skipn (Z.to_nat top_n) view /\
  (List.length (top_customers view top_n) <= 20)%nat /\
  (List.length view <= Z.to_nat top_n ->
   top_customers view top_n = view)%nat /\
  (forall a b, In a (top_customers view top_n) ->
               In b (skipn (Z.to_nat top_n) view) ->
               (sales_current b <= sales_current a)%Z).
Proof.
  intros Ha Hf Hn.
  assert (Hs : StronglySorted (fun a b => (sales_current b <= sales_current a)%Z) view).
  { apply filtering_view in Hf. destruct Hf as [name_ok ->].
    do 3 apply StronglySorted_filter. apply (@analyze_sorted S L R df Ha). }
  unfold top_customers.
  split; [exact Hs|]. split; [symmetry; apply firstn_skipn|]. split; [|split].
  - rewrite length_firstn. lia.
  - intros Hlen. apply firstn_all2. exact Hlen.
  - apply StronglySorted_app. rewrite firstn_skipn. exact Hs.
Qed.

(** X15.  The two bounds of the slider are the smallest and the largest
    current amount of the table: every row lies between them and each is
    the amount of some row. *)
Theorem slider_bounds (df : list Row) (lo hi : Z) :
  min_amount df = Return lo -> max_amount df = Return hi ->
  (lo <= hi)%Z /\
  (forall r, In r df -> (lo <= sales_current r <= hi)%Z) /\
  (exists r, In r df /\ sales_current r = lo) /\
  (exists r, In r df /\ sales_current r = hi).
Proof.
  intros Hlo Hhi.
  assert (Hb : forall r, In r df -> (lo <= sales_current r <= hi)%Z).
  { intros r Hr. split; [apply (@min_amount_le df lo r Hlo Hr)
                        | apply (@max_amount_ge df hi r Hhi Hr)]. }
  assert (Hmin : exists r, In r df /\ sales_current r = lo).
  { destruct df as [|r0 rows]; [discriminate|]. simpl in Hlo. injection Hlo as <-.
    clear Hhi Hb. induction rows as [|x rows IH]; simpl.
    - exists r0. split; [left; reflexivity | reflexivity].
    - destruct IH as [r [Hr E]].
      destruct (Z.min_spec (sales_current x)
                  (fold_right Z.min (sales_current r0) (map sales_current rows)))
        as [[_ ->]|[_ ->]].
      + exists x. split; [right; left; reflexivity | reflexivity].
      + exists r. split; [|exact E]. destruct Hr as [<-|Hr]; [left; reflexivity|].
        right; right; exact Hr. }
  assert (Hmax : exists r, In r df /\ sales_current r = hi).
  { destruct df as [|r0 rows]; [discriminate|]. simpl in Hhi. injection Hhi as <-.
    clear Hlo Hb Hmin. induction rows as [|x rows IH]; simpl.
    - exists r0. split; [left; reflexivity | reflexivity].
    - destruct IH as [r [Hr E]].
      destruct (Z.max_spec (sales_current x)
                  (fold_right Z.max (sales_current r0) (map sales_current rows)))
        as [[_ ->]|[_ ->]].
      + exists r. split; [|exact E]. destruct Hr as [<-|Hr]; [left; reflexivity|].
        right; right; exact Hr.
      + exists x. split; [right; left; reflexivity | reflexivity]. }
  split; [|split; [exact Hb | split; assumption]].
  destruct Hmin as [r [Hr _]]. specialize (Hb r Hr). lia.
Qed.

(** X16.  With the table of an analysed pair in the session, its current
    amounts below 2^53 in absolute value, the bounds of the slider exist.
    When they are equal, as for a table of one row, the slider raises.
    When they differ, the page shows a filtered table and the summary of
    the whole table unless the search term is not empty and does not
    compile, in which case it raises. *)
Theorem page_shows_or_raises (S : SortValues) (L R : AggTable) (df : list Row)
        (state : SessionState) (rng : Z * Z) (chg : ChangeOption) (term : str) :
  analyze_sales_data L R = Return df ->
  analysis_done state = true -> comparison_df state = Some df ->
  Forall (fun r => (Z.abs (sales_current r) < 2 ^ 53)%Z) df ->
  exists lo hi,
    min_amount df = Return lo /\ max_amount df = Return hi /\ (lo <= hi)%Z /\
    (lo = hi ->
     show_results ci_eqb re_other state rng chg term =
     Raise (LibraryError "StreamlitInvalidMinMaxError")) /\
    ((lo < hi)%Z -> term = [] \/ re_compile ci_eqb re_other term <> None ->
     exists view,
       filtering ci_eqb re_other df rng chg term = Return view /\
       show_results ci_eqb re_other state rng chg term =
       Return (state, Some (mkShown view (summary df)))) /\
    ((lo < hi)%Z -> term <> [] -> re_compile ci_eqb re_other term = None ->
     show_results ci_eqb re_other state rng chg term = Raise ReError) /\
    (List.length df = 1%nat -> lo = hi).
Proof.
  intros Ha Hdone Hdf _.
  pose proof (@analyze_nonempty S L R df Ha) as Hne.
  destruct (min_amount df) as [lo|e] eqn:Elo;
    [|destruct df; [congruence | discriminate]].
  destruct (max_amount df) as [hi|e] eqn:Ehi;
    [|destruct df; [congruence | discriminate]].
  exists lo, hi. split; [reflexivity|]. split; [reflexivity|].
  assert (Hle : (lo <= hi)%Z).
  { destruct df as [|r0 rows]; [congruence|].
    pose proof (@min_amount_le (r0 :: rows) lo r0 Elo (or_introl eq_refl)).
    pose proof (@max_amount_ge (r0 :: rows) hi r0 Ehi (or_introl eq_refl)). lia. }
  split; [exact Hle|].
  unfold show_results. rewrite Hdone, Hdf, Elo, Ehi. cbn [rbind]. unfold slider.
  split; [|split; [|split]].
  - intros ->. rewrite Z.ltb_irrefl. reflexivity.
  - intros Hlt H. apply Z.ltb_lt in Hlt. rewrite Hlt. cbn [rbind].
    rewrite filtering_steps. cbv zeta.
    destruct term as [|c term]; [eexists; split; reflexivity|].
    destruct H as [H|H]; [discriminate|].
    destruct (re_compile ci_eqb re_other (c :: term)); [|congruence].
    eexists. split; reflexivity.
  - intros Hlt Hterm Hre. apply Z.ltb_lt in Hlt. rewrite Hlt. cbn [rbind].
    rewrite filtering_steps. cbv zeta.
    destruct term as [|c term]; [congruence|].
    rewrite Hre. reflexivity.
  - intros Hlen. destruct df as [|r0 [|r1 rows]]; try discriminate.
    simpl in Elo, Ehi. congruence.
Qed.

End PageProperties.

(** ** Uploads *)

Section UploadProperties.
Variable File : Type.
Variable read_excel : File -> result DataFrame.
Variable to_numeric : list cell -> result (list num).
Context {S : SortValues}.

(** X17.  When an uploader is empty, or one of the two files gives no
    table, the session state is left as it was, so an earlier comparison
    stays; the second file is processed also when the first gave no
    table. *)
Theorem failed_upload_keeps_session (state : SessionState) (f1 f2 : File)
        (log log1 log2 : list notice) (r1 r2 : option AggTable) :
  process_excel_data read_excel to_numeric f1 log = (Return r1, log1) ->
  process_excel_data read_excel to_numeric f2 log1 = (Return r2, log2) ->
  r1 = None \/ r2 = None ->
  upload_block read_excel to_numeric state (Some f1) (Some f2) log =
    (state, log2, Return false) /\
  upload_block read_excel to_numeric state None (Some f2) log =
    (state, log, Return false) /\
  upload_block read_excel to_numeric state (Some f1) None log =
    (state, log, Return false).
Proof.
  intros H1 H2 Hnone. split; [|split; reflexivity].
  unfold upload_block. rewrite H1, H2.
  destruct Hnone as [->| ->]; [reflexivity|]. destruct r1; reflexivity.
Qed.

(** X18.  When both files give a table and one of the tables has a row, the
    session holds both tables, the comparison and the done flag.  When
    neither table has a row, the block raises IndexError after storing the
    two tables, with the earlier comparison and flag still in place. *)
Theorem upload_stores_or_raises (state : SessionState) (f1 f2 : File)
        (log log1 log2 : list notice) (last_year this_year : AggTable) :
  process_excel_data read_excel to_numeric f1 log = (Return (Some last_year), log1) ->
  process_excel_data read_excel to_numeric f2 log1 = (Return (Some this_year), log2) ->
  (agg_rows last_year <> [] \/ agg_rows this_year <> [] ->
   exists df,
     analyze_sales_data last_year this_year = Return df /\ df <> [] /\
     upload_block read_excel to_numeric state (Some f1) (Some f2) log =
     (mkSessionState (Some last_year) (Some this_year) true (Some df),
      log2, Return true)) /\
  (agg_rows last_year = [] -> agg_rows this_year = [] ->
   upload_block read_excel to_numeric state (Some f1) (Some f2) log =
   (mkSessionState (Some last_year) (Some this_year)
                   (analysis_done state) (comparison_df state),
    log2, Raise IndexError)).
Proof.
  intros H1 H2. unfold upload_block. rewrite H1, H2. split.
  - intros Hrows.
    assert (Hne : unrounded last_year this_year <> []).
    { intros E. apply unrounded_no_rows in E. destruct E as [HL HR].
      destruct Hrows as [H|H]; contradiction. }
    pose proof (@analyze_rows S last_year this_year Hne) as Ha.
    eexists. split; [exact Ha|]. split.
    + apply (@analyze_nonempty S last_year this_year _ Ha).
    + rewrite Ha. reflexivity.
  - intros HL HR.
    assert (E : unrounded last_year this_year = [])
      by (apply unrounded_no_rows; split; assumption).
    unfold analyze_sales_data. rewrite E. reflexivity.
Qed.

End UploadProperties.

(** ** The sign of the delta *)

Lemma this_minus (a b : Qc) : (this (a - b)%Qc == this a - this b)%Q.
Proof.
  unfold Qcminus, Qcplus, Qcopp, Q2Qc. cbn [this].
  rewrite !Qred_correct. reflexivity.
Qed.

Lemma rounded_sign (x : Q) (z : Z) :
  (Qabs (x - inject_Z z) <= 1 # 2)%Q ->
  ((0 < z)%Z -> (0 < x)%Q) /\ ((z < 0)%Z -> (x < 0)%Q).
Proof.
  intros H. apply Qabs_Qle_condition in H. destruct H as [H1 H2]. split; intros Hz.
  - assert (Hi : (1 <= inject_Z z)%Q).
    { change 1%Q with (inject_Z 1). rewrite <- Zle_Qle. lia. }
    lra.
  - assert (Hi : (inject_Z z <= -1)%Q).
    { change (-1)%Q with (inject_Z (-1)). rewrite <- Zle_Qle. lia. }
    lra.
Qed.

(** X19.  A positive delta of a returned row means the current amount was
    larger than the prior amount before rounding, a negative delta that it
    was smaller, and equal amounts give delta 0. *)
Theorem shown_change_is_real (S : SortValues) (L R : AggTable) (out : list Row) (r : Row) :
  analyze_sales_data L R = Return out -> In r out ->
  exists w,
    In w (unrounded L R) /\
    customer r = Some (c_customer w) /\
    ((0 < delta r)%Z -> (c_prior w < c_current w)%Qc) /\
    ((delta r < 0)%Z -> (c_current w < c_prior w)%Qc) /\
    (c_prior w = c_current w -> delta r = 0%Z).
Proof.
  intros H Hr.
  destruct (@analyze_row_origin S L R out r H Hr) as [w [Hw ->]].
  exists w. split; [exact Hw|]. split; [reflexivity|].
  destruct (@unrounded_row L R w Hw) as [Hd _].
  cbn [delta round_row].
  pose proof (round_half_even_nearest (c_delta w)) as Hn.
  apply rounded_sign in Hn. destruct Hn as [Hpos Hneg].
  rewrite Hd in Hpos, Hneg. rewrite this_minus in Hpos, Hneg.
  split; [|split].
  - intros Hz. rewrite Hd in Hz. specialize (Hpos Hz). unfold Qclt. lra.
  - intros Hz. rewrite Hd in Hz. specialize (Hneg Hz). unfold Qclt. lra.
  - intros E. rewrite Hd, E.
    assert (Hzero : (c_current w - c_current w)%Qc = Qc_of_Z 0)
      by (change (Qc_of_Z 0) with 0%Qc; ring).
    rewrite Hzero. apply round_half_even_whole.
Qed.

(** ** Runs of the further properties *)

Lemma analyze_raises_only_without_rows_witness :
  exists out,
    analyze_sales_data (S := stable_sort) scenario_prior scenario_current = Return out /\
    out <> [].
Proof.
  apply (proj2 (@analyze_raises_only_without_rows stable_sort scenario_prior
                  scenario_current)).
  left. discriminate.
Defined.

Lemma one_row_per_customer_no_more_witness :
  Permutation (map customer scenario_out)
              (map Some (nodup str_eq_dec (keys scenario_prior ++ keys scenario_current))) /\
  NoDup (map customer scenario_out) /\
  List.length scenario_out =
    List.length (nodup str_eq_dec (keys scenario_prior ++ keys scenario_current)) /\
  (forall r, In r scenario_out ->
             exists c, customer r = Some c /\
                       In c (keys scenario_prior ++ keys scenario_current)).
Proof.
  apply (@one_row_per_customer_no_more stable_sort scenario_prior scenario_current
           scenario_out).
  - distinct_keys.
  - distinct_keys.
  - table_eq.
Defined.

Lemma whole_amounts_unchanged_witness :
  (exists w, In w (unrounded scenario_prior scenario_current) /\
             customer row_A = Some (c_customer w) /\
             c_prior w = Qc_of_Z (sales_prior row_A) /\
             c_current w = Qc_of_Z (sales_current row_A)) /\
  delta row_A = (sales_current row_A - sales_prior row_A)%Z.
Proof.
  apply (@whole_amounts_unchanged stable_sort scenario_prior scenario_current
           scenario_out row_A).
  - vm_compute. reflexivity.
  - vm_compute. reflexivity.
  - table_eq.
  - simpl. tauto.
Defined.

Lemma whole_amounts_totals_balance_witness :
  total_change (summary scenario_out) =
  (current_total (summary scenario_out) - prior_total (summary scenario_out))%Z.
Proof.
  apply (@whole_amounts_totals_balance stable_sort scenario_prior scenario_current
           scenario_out).
  - vm_compute. reflexivity.
  - vm_compute. reflexivity.
  - table_eq.
Defined.

Lemma lost_and_new_customers_witness :
  exists r, filter (customer_is (str_of "B")) scenario_out = [r] /\
            sales_prior r = round_half_even (Qc_of_Z 200) /\
            sales_current r = 0%Z /\
            rate_value (rate r) = Some (Qc_of_Z (-100)).
Proof.
  apply (proj1 (@lost_and_new_customers stable_sort scenario_prior scenario_current
                  scenario_out (str_of "B") ltac:(distinct_keys) ltac:(distinct_keys)
                  ltac:(table_eq))
               (mkAggRow (str_of "B") (Qc_of_Z 200) None)).
  - reflexivity.
  - vm_compute. intuition discriminate.
  - intros H. discriminate H.
Defined.

Example group_sums_of_sample :
  map (fun r => (fst r, this (snd r)))
      (groupby_sum (kept_customer kept_with_profit) (kept_amount kept_with_profit)) =
  [(str_of "A", 20 # 1); (str_of "B", 40 # 1)]%Q.
Proof. vm_compute. reflexivity. Qed.

Lemma missing_required_columns_reported_witness :
  process_excel_data parsed to_numeric_numbers sheet_without_amount [] =
  (Return None,
   [] ++ [Error_missing_required
            ((if present (col_customer sheet_without_amount) then [] else [COL_CUSTOMER]) ++
             (if present (col_amount sheet_without_amount) then [] else [COL_AMOUNT]));
          Info_required_columns]).
Proof.
  apply (@missing_required_columns_reported DataFrame parsed to_numeric_numbers
           sheet_without_amount sheet_without_amount []).
  - reflexivity.
  - right. reflexivity.
Defined.

Lemma returned_customers_ordered_witness :
  NoDup (keys gap_table) /\ Sorted (fun a b => str_leb a b = true) (keys gap_table).
Proof.
  apply (@returned_customers_ordered DataFrame parsed to_numeric_numbers sheet_with_gap
           [] gap_table [Warning_missing_optional [COL_HANDLER; COL_ITEM; COL_PROFIT]]).
  table_eq.
Defined.

Lemma profit_sums_complete_witness :
  exists t,
    aggregate to_numeric_numbers kept_with_profit [] = (Return t, []) /\
    has_profit t = true /\
    sales_of t = groupby_sum (kept_customer kept_with_profit)
                             (kept_amount kept_with_profit) /\
    forall a, In a (agg_rows t) ->
      gross_profit a =
      Some (nansum (map snd (filter (in_group (customer_name a))
                                    (combine (kept_customer kept_with_profit)
                                             [Some (Qc_of_Z 1); None; Some (Qc_of_Z 3)])))).
Proof.
  apply (@profit_sums_complete to_numeric_numbers kept_with_profit
           (Numeric [Some (Qc_of_Z 1); None; Some (Qc_of_Z 3)])
           [Some (Qc_of_Z 1); None; Some (Qc_of_Z 3)] []).
  - reflexivity.
  - left. reflexivity.
  - reflexivity.
  - reflexivity.
Defined.

Lemma increase_and_decrease_views_witness :
  (forall r, In r [row_A; row_C] <-> In r scenario_out /\ (0 < delta r)%Z) /\
  (forall r, In r [row_B] <-> In r scenario_out /\ (delta r < 0)%Z) /\
  (forall r, In r [row_A; row_C] -> ~ In r [row_B]) /\
  (forall r, In r scenario_out -> delta r = 0%Z ->
             ~ In r [row_A; row_C] /\ ~ In r [row_B]).
Proof.
  apply (@increase_and_decrease_views ascii_ci_eqb no_other scenario_out (0, 150)%Z []).
  - vm_compute. reflexivity.
  - vm_compute. reflexivity.
  - vm_compute. reflexivity.
Defined.

Lemma chart_rows_lead_witness :
  StronglySorted (fun a b => (sales_current b <= sales_current a)%Z) [row_A; row_C] /\
  [row_A; row_C] = top_customers [row_A; row_C] 5 ++ skipn (Z.to_nat 5) [row_A; row_C] /\
  (List.length (top_customers [row_A; row_C] 5) <= 20)%nat /\
  (List.length [row_A; row_C] <= Z.to_nat 5 ->
   top_customers [row_A; row_C] 5 = [row_A; row_C])%nat /\
  (forall a b, In a (top_customers [row_A; row_C] 5) ->
               In b (skipn (Z.to_nat 5) [row_A; row_C]) ->
               (sales_current b <= sales_current a)%Z).
Proof.
  apply (@chart_rows_lead ascii_ci_eqb no_other stable_sort scenario_prior
           scenario_current scenario_out (0, 150)%Z IncreaseOnly [] [row_A; row_C] 5).
  - table_eq.
  - vm_compute. reflexivity.
  - lia.
Defined.

Lemma slider_bounds_witness :
  (0 <= 150)%Z /\
  (forall r, In r scenario_out -> (0 <= sales_current r <= 150)%Z) /\
  (exists r, In r scenario_out /\ sales_current r = 0%Z) /\
  (exists r, In r scenario_out /\ sales_current r = 150%Z).
Proof.
  apply (@slider_bounds scenario_out 0 150).
  - reflexivity.
  - reflexivity.
Defined.

Lemma page_shows_or_raises_witness :
  exists lo hi,
    min_amount scenario_out = Return lo /\ max_amount scenario_out = Return hi /\
    (lo <= hi)%Z /\
    (lo = hi ->
     show_results ascii_ci_eqb no_other scenario_state (0, 150)%Z ShowAll (str_of "a") =
     Raise (LibraryError "StreamlitInvalidMinMaxError")) /\
    ((lo < hi)%Z ->
     str_of "a" = [] \/ re_compile ascii_ci_eqb no_other (str_of "a") <> None ->
     exists view,
       filtering ascii_ci_eqb no_other scenario_out (0, 150)%Z ShowAll (str_of "a") =
       Return view /\
       show_results ascii_ci_eqb no_other scenario_state (0, 150)%Z ShowAll (str_of "a") =
       Return (scenario_state, Some (mkShown view (summary scenario_out)))) /\
    ((lo < hi)%Z -> str_of "a" <> [] ->
     re_compile ascii_ci_eqb no_other (str_of "a") = None ->
     show_results ascii_ci_eqb no_other scenario_state (0, 150)%Z ShowAll (str_of "a") =
     Raise ReError) /\
    (List.length scenario_out = 1%nat -> lo = hi).
Proof.
  apply (@page_shows_or_raises ascii_ci_eqb no_other stable_sort scenario_prior
           scenario_current scenario_out scenario_state (0, 150)%Z ShowAll (str_of "a")).
  - table_eq.
  - reflexivity.
  - reflexivity.
  - repeat constructor.
Defined.

(** One customer: the two bounds of the slider are equal and the page
    raises before it shows anything. *)
Example one_customer_page_raises :
  analyze_sales_data (S := stable_sort) (tbl [("A", 3%Z)]%string)
                     (tbl [("A", 4%Z)]%string) =
    Return [mkRow (Some (str_of "A")) 3 4 None None 1 (RateInt 33)] /\
  show_results ascii_ci_eqb no_other
    (session [mkRow (Some (str_of "A")) 3 4 None None 1 (RateInt 33)])
    (4, 4)%Z ShowAll [] =
  Raise (LibraryError "StreamlitInvalidMinMaxError").
Proof. split; vm_compute; reflexivity. Qed.

Lemma failed_upload_keeps_session_witness :
  upload_block (S := stable_sort) parsed to_numeric_numbers scenario_state
               (Some sheet_with_gap) (Some sheet_without_amount) [] =
    (scenario_state,
     [Warning_missing_optional [COL_HANDLER; COL_ITEM; COL_PROFIT];
      Error_missing_required [COL_AMOUNT]; Info_required_columns],
     Return false) /\
  upload_block (S := stable_sort) parsed to_numeric_numbers scenario_state
               None (Some sheet_without_amount) [] =
    (scenario_state, [], Return false) /\
  upload_block (S := stable_sort) parsed to_numeric_numbers scenario_state
               (Some sheet_with_gap) None [] =
    (scenario_state, [], Return false).
Proof.
  apply (@failed_upload_keeps_session DataFrame parsed to_numeric_numbers stable_sort
           scenario_state sheet_with_gap sheet_without_amount []
           [Warning_missing_optional [COL_HANDLER; COL_ITEM; COL_PROFIT]]
           [Warning_missing_optional [COL_HANDLER; COL_ITEM; COL_PROFIT];
            Error_missing_required [COL_AMOUNT]; Info_required_columns]
           (Some gap_table) None).
  - table_eq.
  - vm_compute. reflexivity.
  - right. reflexivity.
Defined.

Lemma upload_without_rows_witness :
  upload_block (S := stable_sort) parsed to_numeric_numbers scenario_state
               (Some sheet_without_rows) (Some sheet_without_rows) [] =
  (mkSessionState (Some table_without_rows) (Some table_without_rows)
                  (analysis_done scenario_state) (comparison_df scenario_state),
   [Warning_missing_optional [COL_PROFIT]; Warning_missing_optional [COL_PROFIT]],
   Raise IndexError).
Proof.
  apply (proj2 (@upload_stores_or_raises DataFrame parsed to_numeric_numbers stable_sort
                  scenario_state sheet_without_rows sheet_without_rows []
                  [Warning_missing_optional [COL_PROFIT]]
                  [Warning_missing_optional [COL_PROFIT];
                   Warning_missing_optional [COL_PROFIT]]
                  table_without_rows table_without_rows
                  ltac:(vm_compute; reflexivity) ltac:(vm_compute; reflexivity))).
  - reflexivity.
  - reflexivity.
Defined.

Lemma shown_change_is_real_witness :
  exists w,
    In w (unrounded scenario_prior scenario_current) /\
    customer row_A = Some (c_customer w) /\
    ((0 < delta row_A)%Z -> (c_prior w < c_current w)%Qc) /\
    ((delta row_A < 0)%Z -> (c_current w < c_prior w)%Qc) /\
    (c_prior w = c_current w -> delta row_A = 0%Z).
Proof.
  apply (@shown_change_is_real stable_sort scenario_prior scenario_current
           scenario_out row_A).
  - table_eq.
  - simpl. tauto.
Defined.

(** An increase of less than one half is shown as no change. *)
Example small_increase_not_shown :
  exists r,
    analyze_sales_data (S := stable_sort)
      (tbl [("A", 1%Z)]%string)
      (mkAggTable false [mkAggRow (str_of "A") (Q2Qc (7 # 5)) None]) = Return [r] /\
    delta r = 0%Z /\
    filtering ascii_ci_eqb no_other [r] (1, 1)%Z IncreaseOnly [] = Return [].
Proof.
  eexists. split; [vm_compute; reflexivity|]. split; reflexivity.
Qed.
